(** * Tribler overlay: the torrent-metadata handler

    A shallow embedding of [Tribler/Overlay/MetadataHandler.py] (Python 2):
    the GET_METADATA / METADATA message handler, the on-disk torrent store,
    the capacity counter and the weighted eviction pass, followed by the
    properties of the design document that concern them.

    Conventions of the embedding.
    - A Python 2 [str] is a [string]; [len] is [String.length] read in [Z].
    - Python [int]/[long] are unbounded, so they are [Z]; [/] on two ints is
      floor division, i.e. [Z.div].
    - [time()] is a float; a clock reading is an exact rational [Q], and
      [int(x)] on it truncates toward zero.
    - A method of [MetadataHandler] is a function from the handler (and the
      world it touches: index store, disk, transport) to a result and the
      handler afterwards.  A raised exception does not undo the mutations
      made before it, so the handler is returned in both cases. *)

From Stdlib Require Import ZArith QArith String Ascii List Bool Lia DecimalString.
From Stdlib Require Import Permutation Sorted.
Import ListNotations.

Local Open Scope string_scope.
Local Open Scope Z_scope.

Set Warnings "-register-all".

(* ------------------------------------------------------------------ *)
(** ** Python values and exceptions *)
(* ------------------------------------------------------------------ *)

(** What [bdecode] produces: integers, strings, lists and dictionaries
    with string keys.  A dictionary is kept as an association list; the
    first binding of a key is the live one. *)
Inductive bvalue : Type :=
| BInt (z : Z)
| BStr (s : string)
| BList (l : list bvalue)
| BDict (d : list (string * bvalue)).

(** The exception classes the handler can meet. *)
Inductive exn : Type :=
| ValueError | KeyError | TypeError | AttributeError | IndexError
| IOError | OSError | RuntimeError.

(** The outcome of evaluating an expression: a value or a raised exception. *)
Inductive res (A : Type) : Type :=
| Ok (a : A)
| Raise (e : exn).
Arguments Ok {A} a.
Arguments Raise {A} e.

(** [len(s)] *)
Definition len (s : string) : Z := Z.of_nat (String.length s).

Fixpoint assoc {A} (k : string) (d : list (string * A)) : option A :=
  match d with
  | [] => None
  | (k', v) :: d' => if String.eqb k k' then Some v else assoc k d'
  end.

(** [x[k]] for a string key [k]: [KeyError] on a dictionary without the
    key, [TypeError] on anything that is not a dictionary. *)
Definition py_getitem (x : bvalue) (k : string) : res bvalue :=
  match x with
  | BDict d => match assoc k d with Some v => Ok v | None => Raise KeyError end
  | _ => Raise TypeError
  end.

(** [x.get(k, dflt)]: only dictionaries have the method. *)
Definition py_get (x : bvalue) (k : string) (dflt : bvalue) : res bvalue :=
  match x with
  | BDict d => match assoc k d with Some v => Ok v | None => Ok dflt end
  | _ => Raise AttributeError
  end.

(** [x.has_key(k)] *)
Definition py_has_key (x : bvalue) (k : string) : res bool :=
  match x with
  | BDict d => match assoc k d with Some _ => Ok true | None => Ok false end
  | _ => Raise AttributeError
  end.

(** [int(q)] on a float: truncation toward zero. *)
Definition py_int (q : Q) : Z := Z.quot (Qnum q) (Z.pos (Qden q)).

(* ------------------------------------------------------------------ *)
(** ** Index records *)
(* ------------------------------------------------------------------ *)

(** The ['info'] sub-dictionary of an index record, as [addTorrentToDB]
    builds it.  The fields copied verbatim from decoded metadata keep the
    dynamic type they arrived with. *)
Record torrent_info : Type := mk_torrent_info {
  ti_name : bvalue;
  ti_length : bvalue;
  ti_num_files : Z;
  ti_announce : bvalue;
  ti_announce_list : bvalue;
  ti_creation_date : option bvalue
}.

(** One record of the torrent index.  A key the handler reads with
    [.get(key, default)] or inside a [try] may be absent and is an
    [option]. *)
Record torrent : Type := mk_torrent {
  infohash : string;
  torrent_dir : option string;
  torrent_name : option string;
  info : option torrent_info;
  category : list string;
  ignore_number : Z;
  last_check_time : Z;
  retry_number : option Z;
  seeder : Z;
  leecher : Z;
  status : option string;
  relevance : option Z;
  weight : option Z
}.

Definition set_weight (t : torrent) (w : Z) : torrent :=
  mk_torrent (infohash t) (torrent_dir t) (torrent_name t) (info t)
    (category t) (ignore_number t) (last_check_time t) (retry_number t)
    (seeder t) (leecher t) (status t) (relevance t) (Some w).

(* ------------------------------------------------------------------ *)
(** ** The eviction weight: [get_weight] inside [limit_space] *)
(* ------------------------------------------------------------------ *)

(** [status_value.get(status_key, 2)] with
    [status_value = {'dead':2, 'unknown':1, 'good':0}]. *)
Definition status_value (status_key : string) : Z :=
  if String.eqb status_key "dead" then 2
  else if String.eqb status_key "unknown" then 1
  else if String.eqb status_key "good" then 0
  else 2.

(** [int((time() - date)/(24*60*60))] for an integer [date]. *)
Definition days_since (now : Q) (date : Z) : Z :=
  py_int ((now - inject_Z date) / inject_Z (24*60*60)).

(** [get_weight(torrent)].  [now] is the value [time()] returns.  The
    subtraction [time() - date] raises [TypeError] when the stored
    creation date is not a number. *)
Definition get_weight (now : Q) (t : torrent) : res Z :=
  let status_key := match status t with Some s => s | None => "dead" end in
  let status := status_value status_key in
  let retry_number := Z.min (match retry_number t with Some r => r | None => 0 end) 99 in
  let relevance := Z.min (match relevance t with Some r => r | None => 0 end) 99 in
  let date := match info t with
              | Some i => match ti_creation_date i with Some d => d | None => BInt 0 end
              | None => BInt 0
              end in
  match date with
  | BInt date =>
      let rel_date := Z.min (days_since now date) 999 in
      Ok (status * 10^7 + retry_number * 10^5 + (99 - relevance) * 10^3 + rel_date)
  | _ => Raise TypeError
  end.

(* ------------------------------------------------------------------ *)
(** ** The collaborators of the handler *)
(* ------------------------------------------------------------------ *)

(** Library functions and constants the module imports.  Their code is
    not part of the handler; every result below holds for any choice of
    them.
    - [sha s] is [sha(s).digest()] and [sha_hex s] is [sha(s).hexdigest()];
    - [bencode], [bdecode] are [BitTornado.bencode];
    - [name2unicode] is [Tribler.unicode.name2unicode]: it returns the
      key of the display name and rewrites the metainfo in place, so the
      rewritten metainfo is returned with the key;
    - [calculateCategory] is [Category.getInstance().calculateCategory];
    - [path_join], [path_split] are [os.path.join], [os.path.split];
    - [str_time] is [str] on a clock reading;
    - [GET_METADATA], [METADATA] are the type bytes of
      [BitTornado.BT1.MessageID];
    - [max_num_torrents] is [GLOBAL.max_num_torrents]. *)
Class Platform : Type := {
  sha : string -> string;
  sha_hex : string -> string;
  bencode : bvalue -> string;
  bdecode : string -> res bvalue;
  name2unicode : bvalue -> res (string * bvalue);
  calculateCategory : bvalue -> bvalue -> list string;
  path_join : string -> string -> string;
  path_split : string -> string * string;
  str_time : Q -> string;
  GET_METADATA : ascii;
  METADATA : ascii;
  max_num_torrents : Z
}.

(** [bdecode(x)] on an arbitrary value: the decoder indexes and slices
    its argument as a string and raises on anything else. *)
Definition py_bdecode `{Platform} (x : bvalue) : res bvalue :=
  match x with
  | BStr s => bdecode s
  | _ => Raise TypeError
  end.

(** Modelled from the spec: [isValidInfohash] lives in [Tribler.utilities],
    which is not among the sources.  "True iff input is exactly the fixed
    identifier length" (20 bytes). *)
Definition isValidInfohash (x : bvalue) : bool :=
  match x with
  | BStr s => len s =? 20
  | _ => false
  end.

(* ------------------------------------------------------------------ *)
(** ** The disk *)
(* ------------------------------------------------------------------ *)

Record file : Type := mk_file {
  f_data : string;
  f_readable : bool
}.

(** How the disk misbehaves on writes: not at all; every creation is
    refused (read-only, no permission); or an empty file can still be
    created but no directory made and no byte written (disk full). *)
Inductive disk_fault : Type := NoFault | ReadOnly | DiskFull.

Record filesystem : Type := mk_fs {
  files : list (string * file);
  dirs : list string;
  fault : disk_fault
}.

Fixpoint remove_key {A} (k : string) (d : list (string * A)) : list (string * A) :=
  match d with
  | [] => []
  | (k', v) :: d' =>
      if String.eqb k k' then remove_key k d' else (k', v) :: remove_key k d'
  end.

Definition mem (k : string) (l : list string) : bool :=
  existsb (String.eqb k) l.

(** [os.path.isfile] *)
Definition isfile (fs : filesystem) (path : string) : bool :=
  match assoc path (files fs) with Some _ => true | None => false end.

(** [os.path.exists], [os.access(path, os.F_OK)] *)
Definition exists_path (fs : filesystem) (path : string) : bool :=
  isfile fs path || mem path (dirs fs).

(** [open(path, "rb").read()] *)
Definition read_file (fs : filesystem) (path : string) : res string :=
  match assoc path (files fs) with
  | Some f => if f_readable f then Ok (f_data f) else Raise IOError
  | None => Raise IOError
  end.

(** [os.mkdir(dir)] *)
Definition mkdir (fs : filesystem) (dir : string) : res filesystem :=
  match fault fs with
  | NoFault =>
      if exists_path fs dir then Raise OSError
      else Ok (mk_fs (files fs) (dir :: dirs fs) (fault fs))
  | _ => Raise OSError
  end.

Definition put_file (fs : filesystem) (path data : string) : filesystem :=
  mk_fs ((path, mk_file data true) :: remove_key path (files fs)) (dirs fs) (fault fs).

(** [open(path, 'wb')]: creates the file or truncates it. *)
Definition open_wb (fs : filesystem) (path : string) : res filesystem :=
  match fault fs with
  | ReadOnly => Raise IOError
  | _ => Ok (put_file fs path "")
  end.

(** [file.write(data); file.close()] on a file just opened at [path]. *)
Definition write_file (fs : filesystem) (path data : string) : res filesystem :=
  match fault fs with
  | NoFault => Ok (put_file fs path data)
  | _ => Raise IOError
  end.

Definition unlink (fs : filesystem) (path : string) : filesystem :=
  mk_fs (remove_key path (files fs)) (dirs fs) (fault fs).

(* ------------------------------------------------------------------ *)
(** ** The handler and the world it acts on *)
(* ------------------------------------------------------------------ *)

(** The attributes [register] sets on the handler, with the state of its
    collaborators: [torrent_db] is the index ([SynTorrentDBHandler]) and
    [torrent_db_synced] its last flushed copy, [disk] the file system,
    [secure_overlay] the tasks handed to the transport (peer, message),
    [dlhelper] the download helper ([None] when there is none) with the
    calls it received, [clock] the value of [time()] during the call. *)
Record handler : Type := mk_handler {
  config_dir : string;
  torrent_db : list torrent;
  torrent_db_synced : list torrent;
  num_torrents : Z;
  torrent_list : list torrent;
  disk : filesystem;
  secure_overlay : list (string * string);
  dlhelper : option (list (string * bvalue));
  clock : Q
}.

Definition set_torrent_db (st : handler) (db : list torrent) : handler :=
  mk_handler (config_dir st) db (torrent_db_synced st) (num_torrents st)
    (torrent_list st) (disk st) (secure_overlay st) (dlhelper st) (clock st).

Definition set_torrent_db_synced (st : handler) (db : list torrent) : handler :=
  mk_handler (config_dir st) (torrent_db st) db (num_torrents st)
    (torrent_list st) (disk st) (secure_overlay st) (dlhelper st) (clock st).

Definition set_num_torrents (st : handler) (n : Z) : handler :=
  mk_handler (config_dir st) (torrent_db st) (torrent_db_synced st) n
    (torrent_list st) (disk st) (secure_overlay st) (dlhelper st) (clock st).

Definition set_torrent_list (st : handler) (l : list torrent) : handler :=
  mk_handler (config_dir st) (torrent_db st) (torrent_db_synced st)
    (num_torrents st) l (disk st) (secure_overlay st) (dlhelper st) (clock st).

Definition set_disk (st : handler) (fs : filesystem) : handler :=
  mk_handler (config_dir st) (torrent_db st) (torrent_db_synced st)
    (num_torrents st) (torrent_list st) fs (secure_overlay st) (dlhelper st)
    (clock st).

Definition set_secure_overlay (st : handler) (q : list (string * string)) : handler :=
  mk_handler (config_dir st) (torrent_db st) (torrent_db_synced st)
    (num_torrents st) (torrent_list st) (disk st) q (dlhelper st) (clock st).

Definition set_dlhelper (st : handler) (d : option (list (string * bvalue))) : handler :=
  mk_handler (config_dir st) (torrent_db st) (torrent_db_synced st)
    (num_torrents st) (torrent_list st) (disk st) (secure_overlay st) d
    (clock st).

(** [register(secure_overlay, dlhelper, launchmany, config_dir)] on a
    world with the given index, disk and clock. *)
Definition register `{Platform} (with_helper : bool) (dir : string)
    (db : list torrent) (fs : filesystem) (now : Q) : handler :=
  mk_handler (path_join dir "torrent2") db db (-1) [] fs []
    (if with_helper then Some [] else None) now.

(** A method body: it runs on the handler, ends with a value or an
    exception, and leaves the handler as mutated so far. *)
Definition M (A : Type) : Type := handler -> res A * handler.

Definition ret {A} (a : A) : M A := fun st => (Ok a, st).

Definition raise {A} (e : exn) : M A := fun st => (Raise e, st).

Definition lift {A} (r : res A) : M A := fun st => (r, st).

Definition bind {A B} (m : M A) (k : A -> M B) : M B :=
  fun st =>
    match m st with
    | (Ok a, st') => k a st'
    | (Raise e, st') => (Raise e, st')
    end.

(** [try: m  except: h] *)
Definition try_except {A} (m : M A) (h : exn -> M A) : M A :=
  fun st =>
    match m st with
    | (Ok a, st') => (Ok a, st')
    | (Raise e, st') => h e st'
    end.

Definition get : M handler := fun st => (Ok st, st).

Definition modify (f : handler -> handler) : M unit := fun st => (Ok tt, f st).

Declare Scope handler_scope.
Delimit Scope handler_scope with M.
Notation "x <- m ;; k" := (bind m (fun x => k))
  (at level 61, m at next level, right associativity) : handler_scope.
Notation "' pat <- m ;; k" := (bind m (fun x => match x with pat => k end))
  (at level 61, pat pattern, m at next level, right associativity) : handler_scope.
Notation "m ;; k" := (bind m (fun _ => k))
  (at level 61, right associativity) : handler_scope.
Local Open Scope handler_scope.

(** A step on the disk; the disk changes only when the step succeeds. *)
Definition on_disk (f : filesystem -> res filesystem) : M unit :=
  fun st =>
    match f (disk st) with
    | Ok fs => (Ok tt, set_disk st fs)
    | Raise e => (Raise e, st)
    end.

(* ------------------------------------------------------------------ *)
(** ** The index store *)
(* ------------------------------------------------------------------ *)

(** Modelled from the spec: [SynTorrentDBHandler] lives in
    [Tribler.CacheDB], which is not among the sources.  The index offers
    "get(identifier) -> IndexRecord|absent, put(identifier, record, isNew,
    mustSync), delete(identifier, deletePayload), listLight() ->
    sequence<IndexRecord>, sync()", with one record per identifier;
    [put] is an upsert and [delete] "removes both the payload file and the
    index entry". *)
Definition getTorrent (db : list torrent) (h : string) : option torrent :=
  find (fun t => String.eqb (infohash t) h) db.

Definition db_remove (db : list torrent) (h : string) : list torrent :=
  filter (fun t => negb (String.eqb (infohash t) h)) db.

Definition addTorrent (h : string) (t : torrent) : M unit :=
  modify (fun st => set_torrent_db st (db_remove (torrent_db st) h ++ [t])%list).

Definition payload_path `{Platform} (t : torrent) : option string :=
  match torrent_dir t, torrent_name t with
  | Some d, Some n => Some (path_join d n)
  | _, _ => None
  end.

Definition deleteTorrent `{Platform} (h : string) (delete_file : bool) : M unit :=
  modify (fun st =>
    let st1 :=
      match getTorrent (torrent_db st) h with
      | Some t =>
          match payload_path t with
          | Some p => if delete_file then set_disk st (unlink (disk st) p) else st
          | None => st
          end
      | None => st
      end in
    set_torrent_db st1 (db_remove (torrent_db st1) h)).

Definition getRecommendedTorrents (db : list torrent) : list torrent := db.

Definition sync : M unit :=
  modify (fun st => set_torrent_db_synced st (torrent_db st)).

(** Modelled from the spec: [secure_overlay.addTask] hands a message to
    the transport, "send(peerId, messageBytes)", fire-and-forget. *)
Definition addTask (permid msg : string) : M unit :=
  modify (fun st => set_secure_overlay st (secure_overlay st ++ [(permid, msg)])%list).

(** Modelled from the spec: [dlhelper.call_dlhelp_task] is the
    download-helper's "notify(identifier, payload)", fire-and-forget. *)
Definition call_dlhelp_task (h : string) (metadata : bvalue) : M unit :=
  modify (fun st =>
    match dlhelper st with
    | Some calls => set_dlhelper st (Some (calls ++ [(h, metadata)])%list)
    | None => st
    end).

(** Modelled from the spec: [sort_dictlist] lives in [Tribler.utilities],
    which is not among the sources.  With order ['decrease'] "records are
    sorted by descending weight"; a record without the key cannot be
    ranked. *)
Definition weight_key (t : torrent) : Z :=
  match weight t with Some w => w | None => 0 end.

Fixpoint insert_desc (t : torrent) (l : list torrent) : list torrent :=
  match l with
  | [] => [t]
  | u :: l' =>
      if weight_key u <=? weight_key t then t :: u :: l'
      else u :: insert_desc t l'
  end.

Definition sort_desc (l : list torrent) : list torrent :=
  fold_right insert_desc [] l.

Definition has_weight (t : torrent) : bool :=
  match weight t with Some _ => true | None => false end.

Definition sort_dictlist (l : list torrent) : res (list torrent) :=
  if forallb has_weight l then Ok (sort_desc (rev l)) else Raise KeyError.

(* ------------------------------------------------------------------ *)
(** ** The methods of [MetadataHandler] *)
(* ------------------------------------------------------------------ *)

Definition Max_Torrent_Size : Z := 8 * 1024 * 1024.

(** Python's default recursion limit. *)
Definition recursion_limit : nat := 1000.

(** [message[1:]] *)
Definition tail_str (s : string) : string :=
  match s with
  | EmptyString => EmptyString
  | String _ r => r
  end.

Section Methods.

Context `{P : Platform}.

Definition do_send_metadata (permid torrent_hash torrent_data : string) : M unit :=
  let torrent := BDict [("torrent_hash", BStr torrent_hash);
                        ("metadata", BStr torrent_data)] in
  let metadata_request := bencode torrent in
  addTask permid (String METADATA metadata_request).

(** [find_torrent]: the path of the stored torrent file, [None] when the
    index has no record, the record lacks its location, or the file is
    gone. *)
Definition find_torrent (st : handler) (torrent_hash : string) : option string :=
  match getTorrent (torrent_db st) torrent_hash with
  | None => None
  | Some data =>
      match torrent_dir data, torrent_name data with
      | Some d, Some n =>
          let filepath := path_join d n in
          if isfile (disk st) filepath then Some filepath else None
      | _, _ => None
      end
  end.

Definition read_torrent (st : handler) (torrent_path : string) : option string :=
  match read_file (disk st) torrent_path with
  | Ok torrent_data =>
      let torrent_size := len torrent_data in
      if torrent_size >? Max_Torrent_Size then None
      else Some torrent_data
  | Raise _ => None
  end.

(** Python truth value of a string or [None]. *)
Definition truthy (o : option string) : bool :=
  match o with
  | Some EmptyString => false
  | Some _ => true
  | None => false
  end.

Definition send_metadata (conn message : string) : M bool :=
  match bdecode (tail_str message) with
  | Raise _ => ret false
  | Ok torrent_hash =>
      if negb (isValidInfohash torrent_hash) then ret false
      else
        match torrent_hash with
        | BStr torrent_hash =>
            st <- get ;;
            let torrent_path := find_torrent st torrent_hash in
            if negb (truthy torrent_path) then ret false
            else
              let torrent_data :=
                match torrent_path with
                | Some p => read_torrent st p
                | None => None
                end in
              (match torrent_data with
               | Some (String _ _ as data) =>
                   do_send_metadata conn torrent_hash data
               | _ => ret tt
               end) ;;
              ret true
        | _ => ret false
        end
  end.

Definition send_metadata_request (permid : string) (torrent_hash : bvalue) : M bool :=
  if negb (isValidInfohash torrent_hash) then ret false
  else
    let metadata_request := bencode torrent_hash in
    addTask permid (String GET_METADATA metadata_request) ;;
    ret true.

(** The loop [for li in info['files']] of [addTorrentToDB]. *)
Fixpoint sum_files (l : list bvalue) (length nf : Z) : res (Z * Z) :=
  match l with
  | [] => Ok (length, nf)
  | li :: l' =>
      match py_has_key li "length" with
      | Raise e => Raise e
      | Ok false => sum_files l' length (nf + 1)
      | Ok true =>
          match py_getitem li "length" with
          | Ok (BInt n) => sum_files l' (length + n) (nf + 1)
          | Ok _ => Raise TypeError
          | Raise e => Raise e
          end
      end
  end.

(** Iterating [info['files']]: a list yields its items; a non-empty
    string or dictionary yields strings, on which [has_key] fails; an
    integer is not iterable. *)
Definition count_files (files : bvalue) : res (Z * Z) :=
  match files with
  | BList l => sum_files l 0 0
  | BStr EmptyString => Ok (0, 0)
  | BStr _ => Raise AttributeError
  | BDict [] => Ok (0, 0)
  | BDict _ => Raise AttributeError
  | BInt _ => Raise TypeError
  end.

(** [get_weight] over [self.torrent_list], record by record.  The records
    weighted before an exception keep their weight. *)
Fixpoint weigh (now : Q) (l : list torrent) : list torrent * option exn :=
  match l with
  | [] => ([], None)
  | t :: l' =>
      match get_weight now t with
      | Ok w => let (r, e) := weigh now l' in (set_weight t w :: r, e)
      | Raise e => (t :: l', Some e)
      end
  end.

(** The loop [for torrent in self.torrent_list[:num_delete]] of
    [limit_space], over the slice. *)
Fixpoint delete_each (l : list torrent) : M unit :=
  match l with
  | [] => ret tt
  | torrent :: l' =>
      let infohash := infohash torrent in
      deleteTorrent infohash true ;;
      delete_each l'
  end.

Definition limit_space : M unit :=
  st <- get ;;
  let (weighted, e) := weigh (clock st) (torrent_list st) in
  modify (fun st => set_torrent_list st weighted) ;;
  match e with
  | Some e => raise e
  | None =>
      sorted <- lift (sort_dictlist weighted) ;;
      modify (fun st => set_torrent_list st sorted) ;;
      st <- get ;;
      let num_delete := num_torrents st - max_num_torrents + max_num_torrents / 10 in
      let num_delete := if num_delete <=? 0 then 1 else num_delete in
      delete_each (firstn (Z.to_nat num_delete) sorted)
  end.

(** [check_overflow(update)], with the number of frames the interpreter
    still allows. *)
Fixpoint check_overflow_rec (frames : nat) (update : bool) : M unit :=
  match frames with
  | O => raise RuntimeError
  | S frames' =>
      st <- get ;;
      (if num_torrents st <? 0 then
         modify (fun st => set_torrent_list st (getRecommendedTorrents (torrent_db st))) ;;
         modify (fun st => set_num_torrents st (Z.of_nat (List.length (torrent_list st)))) ;;
         check_overflow_rec frames' false
       else ret tt) ;;
      modify (fun st => set_num_torrents st (num_torrents st + 1)) ;;
      st <- get ;;
      if num_torrents st >? max_num_torrents then
        (if update then
           modify (fun st => set_torrent_list st (getRecommendedTorrents (torrent_db st))) ;;
           modify (fun st => set_num_torrents st (Z.of_nat (List.length (torrent_list st))))
         else ret tt) ;;
        st <- get ;;
        if num_torrents st >? max_num_torrents then limit_space
        else ret tt
      else ret tt
  end.

Definition check_overflow (update : bool) : M unit :=
  check_overflow_rec recursion_limit update.

Definition addTorrentToDB (src torrent_hash : string) (metadata : bvalue) : M unit :=
  metainfo <- lift (py_bdecode metadata) ;;
  ' (namekey, metainfo) <- lift (name2unicode metainfo) ;;
  info <- lift (py_getitem metainfo "info") ;;
  let (dir, name) := path_split src in
  ti_name <- lift (py_get info namekey (BStr "")) ;;
  has_length <- lift (py_has_key info "length") ;;
  ' (length, nf) <-
      (if has_length then
         l <- lift (py_get info "length" (BInt 0)) ;; ret (l, 1)
       else
         has_files <- lift (py_has_key info "files") ;;
         if has_files then
           files <- lift (py_getitem info "files") ;;
           ' (length, nf) <- lift (count_files files) ;;
           ret (BInt length, nf)
         else ret (BInt 0, 0)) ;;
  announce <- lift (py_get metainfo "announce" (BStr "")) ;;
  announce_list <- lift (py_get metainfo "announce-list" (BStr "")) ;;
  creation_date <- lift (py_get metainfo "creation date" (BInt 0)) ;;
  let torrent_info :=
    mk_torrent_info ti_name length nf announce announce_list (Some creation_date) in
  let category := calculateCategory info ti_name in
  st <- get ;;
  let torrent :=
    mk_torrent torrent_hash (Some dir) (Some name) (Some torrent_info) category
      0 (py_int (clock st)) (Some 0) 0 0 (Some "unknown") None None in
  addTorrent torrent_hash torrent ;;
  check_overflow true ;;
  sync.

Definition get_filename (metadata : bvalue) (torrent_hash : string) : M string :=
  metainfo <- lift (py_bdecode metadata) ;;
  st <- get ;;
  let file_name := (sha_hex torrent_hash ++ ".torrent")%string in
  let _path := path_join (config_dir st) file_name in
  if exists_path (disk st) _path
  then ret (str_time (clock st) ++ "_" ++ file_name)%string
  else ret file_name.

Definition write_torrent (metadata : bvalue) (dir name : string) : M unit :=
  try_except
    (st <- get ;;
     (if negb (exists_path (disk st) dir) then on_disk (fun fs => mkdir fs dir)
      else ret tt) ;;
     let save_path := path_join dir name in
     on_disk (fun fs => open_wb fs save_path) ;;
     match metadata with
     | BStr data => on_disk (fun fs => write_file fs save_path data)
     | _ => raise TypeError
     end)
    (fun _ => ret tt).

Definition save_torrent (torrent_hash : string) (metadata : bvalue) : M unit :=
  file_name <- get_filename metadata torrent_hash ;;
  st <- get ;;
  let save_path := path_join (config_dir st) file_name in
  addTorrentToDB save_path torrent_hash metadata ;;
  write_torrent metadata (config_dir st) file_name.

Definition valid_metadata (torrent_hash : string) (metadata : bvalue) : res bool :=
  match py_bdecode metadata with
  | Raise e => Raise e
  | Ok metainfo =>
      match py_getitem metainfo "info" with
      | Raise e => Raise e
      | Ok info =>
          let infohash := sha (bencode info) in
          if negb (String.eqb infohash torrent_hash) then Ok false
          else Ok true
      end
  end.

Definition got_metadata (conn message : string) : M bool :=
  match bdecode (tail_str message) with
  | Raise _ => ret false
  | Ok message =>
      match message with
      | BDict _ =>
          try_except
            (torrent_hash <- lift (py_getitem message "torrent_hash") ;;
             if negb (isValidInfohash torrent_hash) then ret false
             else
               match torrent_hash with
               | BStr torrent_hash =>
                   metadata <- lift (py_getitem message "metadata") ;;
                   valid <- lift (valid_metadata torrent_hash metadata) ;;
                   if negb valid then ret false
                   else
                     save_torrent torrent_hash metadata ;;
                     st <- get ;;
                     (match dlhelper st with
                      | Some _ => call_dlhelp_task torrent_hash metadata
                      | None => ret tt
                      end) ;;
                     ret true
               | _ => ret false
               end)
            (fun _ => ret false)
      | _ => ret false
      end
  end.

Definition handleMessage (permid message : string) : M bool :=
  match message with
  | EmptyString => raise IndexError
  | String t _ =>
      if Ascii.eqb t GET_METADATA then send_metadata permid message
      else if Ascii.eqb t METADATA then got_metadata permid message
      else ret false
  end.

End Methods.

(* ------------------------------------------------------------------ *)
(** ** A concrete platform *)
(* ------------------------------------------------------------------ *)

(** One choice of the collaborators, on which the scenarios below are
    run: SHA-1, bencoding, POSIX paths. *)
Module Posix.

(** *** SHA-1 (FIPS 180-1), on 32-bit words kept in [Z]. *)

Definition w32 (x : Z) : Z := x mod 2^32.

Definition rotl (n x : Z) : Z :=
  w32 (Z.lor (Z.shiftl x n) (Z.shiftr x (32 - n))).

Definition byte_of (c : ascii) : Z := Z.of_nat (nat_of_ascii c).

Definition char_of (b : Z) : ascii := ascii_of_nat (Z.to_nat (b mod 256)).

(** Big-endian bytes of [x], [n] of them. *)
Fixpoint be_bytes (n : nat) (x : Z) : list Z :=
  match n with
  | O => []
  | S n' => (Z.shiftr x (8 * Z.of_nat n')) mod 256 :: be_bytes n' x
  end.

Definition pad (msg : list Z) : list Z :=
  let l := Z.of_nat (List.length msg) in
  let zeros := Z.to_nat ((55 - l) mod 64) in
  (msg ++ [128] ++ repeat 0 zeros ++ be_bytes 8 (8 * l))%list.

Fixpoint words (fuel : nat) (bs : list Z) : list Z :=
  match fuel, bs with
  | S fuel', a :: b :: c :: d :: bs' =>
      (a * 2^24 + b * 2^16 + c * 2^8 + d) :: words fuel' bs'
  | _, _ => []
  end.

Fixpoint blocks (fuel : nat) (ws : list Z) : list (list Z) :=
  match fuel, ws with
  | S fuel', _ :: _ => firstn 16 ws :: blocks fuel' (skipn 16 ws)
  | _, _ => []
  end.

(** The message schedule, newest word first. *)
Fixpoint extend (n : nat) (w : list Z) : list Z :=
  match n with
  | O => w
  | S n' =>
      let x := Z.lxor (Z.lxor (nth 2 w 0) (nth 7 w 0))
                      (Z.lxor (nth 13 w 0) (nth 15 w 0)) in
      extend n' (rotl 1 x :: w)
  end.

Definition schedule (block : list Z) : list Z :=
  rev (extend 64 (rev block)).

Definition round_fk (t b c d : Z) : Z * Z :=
  if t <? 20 then (Z.lor (Z.land b c) (Z.land (Z.lxor b (2^32 - 1)) d), 1518500249)
  else if t <? 40 then (Z.lxor (Z.lxor b c) d, 1859775393)
  else if t <? 60 then
    (Z.lor (Z.lor (Z.land b c) (Z.land b d)) (Z.land c d), 2400959708)
  else (Z.lxor (Z.lxor b c) d, 3395469782).

Definition state5 : Type := (Z * Z * Z * Z * Z)%type.

Fixpoint rounds (ws : list Z) (t : Z) (s : state5) : state5 :=
  match ws with
  | [] => s
  | w :: ws' =>
      let '(a, b, c, d, e) := s in
      let (f, k) := round_fk t b c d in
      let temp := w32 (rotl 5 a + f + e + k + w) in
      rounds ws' (t + 1) (temp, a, rotl 30 b, c, d)
  end.

Definition compress (s : state5) (block : list Z) : state5 :=
  let '(h0, h1, h2, h3, h4) := s in
  let '(a, b, c, d, e) := rounds (schedule block) 0 s in
  (w32 (h0 + a), w32 (h1 + b), w32 (h2 + c), w32 (h3 + d), w32 (h4 + e)).

Definition sha1_init : state5 :=
  (1732584193, 4023233417, 2562383102, 271733878, 3285377520).

Definition sha1 (s : string) : string :=
  let bs := pad (map byte_of (list_ascii_of_string s)) in
  let n := List.length bs in
  let '(h0, h1, h2, h3, h4) :=
    fold_left compress (blocks n (words n bs)) sha1_init in
  string_of_list_ascii
    (map char_of (be_bytes 4 h0 ++ be_bytes 4 h1 ++ be_bytes 4 h2
                  ++ be_bytes 4 h3 ++ be_bytes 4 h4)%list).

Definition hex_digit (n : Z) : ascii :=
  if n <? 10 then ascii_of_nat (Z.to_nat (48 + n))
  else ascii_of_nat (Z.to_nat (87 + n)).

Fixpoint hexlify (s : string) : string :=
  match s with
  | EmptyString => EmptyString
  | String c r =>
      let b := byte_of c in
      String (hex_digit (b / 16)) (String (hex_digit (b mod 16)) (hexlify r))
  end.

(** *** Bencoding *)

Definition decimal (z : Z) : string := NilZero.string_of_int (Z.to_int z).

Fixpoint insert_key (kv : string * bvalue) (d : list (string * bvalue))
    : list (string * bvalue) :=
  match d with
  | [] => [kv]
  | kv' :: d' =>
      if String.leb (fst kv) (fst kv') then kv :: kv' :: d'
      else kv' :: insert_key kv d'
  end.

Fixpoint encode (x : bvalue) : string :=
  match x with
  | BInt z => "i" ++ decimal z ++ "e"
  | BStr s => decimal (len s) ++ ":" ++ s
  | BList l =>
      "l" ++ (fix enc_list (l : list bvalue) : string :=
                match l with
                | [] => ""
                | v :: l' => encode v ++ enc_list l'
                end) l ++ "e"
  | BDict d =>
      "d" ++ (fix enc_items (d : list (string * bvalue)) : string :=
                match d with
                | [] => ""
                | (k, v) :: d' =>
                    decimal (len k) ++ ":" ++ k ++ encode v ++ enc_items d'
                end) d ++ "e"
  end%string.

(** Keys are written in sorted order. *)
Fixpoint sort_keys (x : bvalue) : bvalue :=
  match x with
  | BList l => BList (map sort_keys l)
  | BDict d =>
      BDict (fold_right insert_key []
               (map (fun kv => (fst kv, sort_keys (snd kv))) d))
  | _ => x
  end.

Definition digit_of (c : ascii) : option Z :=
  let n := byte_of c in
  if (48 <=? n) && (n <=? 57) then Some (n - 48) else None.

(** A run of decimal digits up to the terminator [stop]: its value, the
    number of digits and what follows the terminator. *)
Fixpoint digits (stop : ascii) (s : string) (acc : Z) (n : nat)
    : option (Z * nat * string) :=
  match s with
  | EmptyString => None
  | String c r =>
      if Ascii.eqb c stop then Some (acc, n, r)
      else match digit_of c with
           | Some d => digits stop r (10 * acc + d) (S n)
           | None => None
           end
  end.

(** No empty number and no leading zero. *)
Definition number (stop : ascii) (s : string) : option (Z * string) :=
  match s with
  | String "0" (String c r) =>
      if Ascii.eqb c stop then Some (0, r) else None
  | _ =>
      match digits stop s 0 0 with
      | Some (z, S _, r) => Some (z, r)
      | _ => None
      end
  end.

Fixpoint split_at (n : nat) (s : string) : option (string * string) :=
  match n, s with
  | O, _ => Some (EmptyString, s)
  | S n', String c r =>
      match split_at n' r with
      | Some (a, b) => Some (String c a, b)
      | None => None
      end
  | S _, EmptyString => None
  end.

Definition decode_string (s : string) : option (string * string) :=
  match number ":" s with
  | Some (n, r) => split_at (Z.to_nat n) r
  | None => None
  end.

Definition dict_set (k : string) (v : bvalue) (d : list (string * bvalue))
    : list (string * bvalue) :=
  (remove_key k d ++ [(k, v)])%list.

(** The decoder; [fuel] bounds the nesting and the number of items, and
    the length of the input is always enough. *)
Fixpoint decode (fuel : nat) (s : string) : option (bvalue * string) :=
  match fuel with
  | O => None
  | S fuel' =>
      match s with
      | String "i" (String "-" r) =>
          match number "e" r with
          | Some (0, _) => None
          | Some (z, r') => Some (BInt (- z), r')
          | None => None
          end
      | String "i" r =>
          match number "e" r with
          | Some (z, r') => Some (BInt z, r')
          | None => None
          end
      | String "l" r =>
          (fix items (n : nat) (s : string) (acc : list bvalue)
             : option (bvalue * string) :=
             match n with
             | O => None
             | S n' =>
                 match s with
                 | String "e" r' => Some (BList (rev acc), r')
                 | _ =>
                     match decode fuel' s with
                     | Some (v, r') => items n' r' (v :: acc)
                     | None => None
                     end
                 end
             end) fuel' r []
      | String "d" r =>
          (fix items (n : nat) (s : string) (acc : list (string * bvalue))
             : option (bvalue * string) :=
             match n with
             | O => None
             | S n' =>
                 match s with
                 | String "e" r' => Some (BDict acc, r')
                 | _ =>
                     match decode_string s with
                     | Some (k, r') =>
                         match decode fuel' r' with
                         | Some (v, r'') => items n' r'' (dict_set k v acc)
                         | None => None
                         end
                     | None => None
                     end
                 end
             end) fuel' r []
      | _ =>
          match decode_string s with
          | Some (v, r) => Some (BStr v, r)
          | None => None
          end
      end
  end.

Definition bencode_value (x : bvalue) : string := encode (sort_keys x).

Definition bdecode_value (s : string) : res bvalue :=
  match decode (S (String.length s)) s with
  | Some (v, EmptyString) => Ok v
  | _ => Raise ValueError
  end.

(** *** The remaining collaborators *)

(** The display name sits under ['name.utf-8'] or ['name'] of the info
    dictionary; the conversion to unicode keeps the bytes. *)
Definition name_key (metainfo : bvalue) : res (string * bvalue) :=
  match py_getitem metainfo "info" with
  | Raise e => Raise e
  | Ok info =>
      match py_has_key info "name.utf-8" with
      | Raise e => Raise e
      | Ok true => Ok ("name.utf-8", metainfo)
      | Ok false =>
          match py_getitem info "name" with
          | Ok _ => Ok ("name", metainfo)
          | Raise e => Raise e
          end
      end
  end.

Definition category_other (info name : bvalue) : list string := ["other"].

Fixpoint ends_with_slash (s : string) : bool :=
  match s with
  | EmptyString => false
  | String c EmptyString => Ascii.eqb c "/"
  | String _ r => ends_with_slash r
  end.

Definition join (a b : string) : string :=
  match b with
  | String "/" _ => b
  | _ =>
      match a with
      | EmptyString => b
      | _ => if ends_with_slash a then a ++ b else a ++ "/" ++ b
      end
  end%string.

(** The part after the last slash and, before it, the directory. *)
Fixpoint split_last (s : string) : option string * string :=
  match s with
  | EmptyString => (None, EmptyString)
  | String c r =>
      match split_last r with
      | (Some d, n) => (Some (String c d), n)
      | (None, n) =>
          if Ascii.eqb c "/" then (Some EmptyString, n)
          else (None, String c n)
      end
  end.

Definition split (s : string) : string * string :=
  match split_last s with
  | (Some EmptyString, n) => ("/", n)
  | (Some d, n) => (d, n)
  | (None, n) => (EmptyString, n)
  end.

(** [str] of a clock reading, to the second. *)
Definition str_float (q : Q) : string := decimal (py_int q) ++ ".0".

(** The platform with budget [max]; the two message types get distinct
    type bytes. *)
Definition platform (max : Z) : Platform :=
  Build_Platform sha1 (fun s => hexlify (sha1 s)) bencode_value bdecode_value
    name_key category_other join split str_float
    (ascii_of_nat 244) (ascii_of_nat 243) max.

End Posix.

(* ------------------------------------------------------------------ *)
(** ** Vocabulary of the properties *)
(* ------------------------------------------------------------------ *)

(** The creation date [get_weight] reads: [info.get('creation date', 0)]
    on [torrent.get('info', {})]. *)
Definition creation_date (t : torrent) : bvalue :=
  match info t with
  | Some i => match ti_creation_date i with Some d => d | None => BInt 0 end
  | None => BInt 0
  end.

Definition status_of (t : torrent) : string :=
  match status t with Some s => s | None => "dead" end.

Definition retry_of (t : torrent) : Z :=
  match retry_number t with Some r => r | None => 0 end.

Definition relevance_of (t : torrent) : Z :=
  match relevance t with Some r => r | None => 0 end.

(** The ['info'] entry of a metadata payload: [bdecode(metadata)['info']]. *)
Definition info_of `{Platform} (metadata : bvalue) : res bvalue :=
  match py_bdecode metadata with
  | Ok metainfo => py_getitem metainfo "info"
  | Raise e => Raise e
  end.

(** The creation date of the record is a number, so [get_weight] can
    subtract it from the clock. *)
Definition numeric_date (t : torrent) : Prop :=
  exists date, creation_date t = BInt date.

(** The weight [get_weight] gives a record with a numeric date. *)
Definition weight_at (now : Q) (t : torrent) : Z :=
  match get_weight now t with
  | Ok w => w
  | Raise _ => 0
  end.

(** The number of records [limit_space] sets out to delete when the
    counter reads [n]. *)
Definition num_delete_of (n max : Z) : Z :=
  let d := n - max + max / 10 in
  if d <=? 0 then 1 else d.

Section Eviction.

Context `{P : Platform}.

(** The snapshot [self.torrent_list] as [limit_space] ranks it, and the
    slice it deletes. *)
Definition ranked (st : handler) : list torrent :=
  sort_desc (rev (map (fun t => set_weight t (weight_at (clock st) t))
                      (torrent_list st))).

Definition victims (st : handler) : list torrent :=
  firstn (Z.to_nat (num_delete_of (num_torrents st) max_num_torrents))
    (ranked st).

(** The counter re-derived from the index:
    [self.torrent_list = self.torrent_db.getRecommendedTorrents(light=True)]
    and [self.num_torrents = len(self.torrent_list)]. *)
Definition recount (st : handler) : handler :=
  set_num_torrents (set_torrent_list st (getRecommendedTorrents (torrent_db st)))
    (Z.of_nat (List.length (torrent_db st))).

(** The statements of [check_overflow] that follow the lazy
    initialisation. *)
Definition count_and_check (update : bool) (st : handler) : res unit * handler :=
  let st1 := set_num_torrents st (num_torrents st + 1) in
  if num_torrents st1 >? max_num_torrents then
    let st2 := if update then recount st1 else st1 in
    if num_torrents st2 >? max_num_torrents then limit_space st2
    else (Ok tt, st2)
  else (Ok tt, st1).

End Eviction.


(** The index without the records of the given identifiers. *)
Definition without (db : list torrent) (hs : list string) : list torrent :=
  filter (fun t => negb (mem (infohash t) hs)) db.

(** One record per identifier. *)
Definition distinct (db : list torrent) : Prop :=
  NoDup (map infohash db).

Fixpoint distinctb (l : list string) : bool :=
  match l with
  | [] => true
  | h :: l' => negb (mem h l') && distinctb l'
  end.

Definition numeric_dateb (t : torrent) : bool :=
  match creation_date t with
  | BInt _ => true
  | _ => false
  end.

(** [c * n] on a one-character string. *)
Fixpoint replicate (n : nat) (c : ascii) : string :=
  match n with
  | O => EmptyString
  | S n' => String c (replicate n' c)
  end.

(* ------------------------------------------------------------------ *)
(** ** Scenario data *)
(* ------------------------------------------------------------------ *)

Module Scenario.

Definition empty_disk : filesystem := mk_fs [] [] NoFault.

(** A handler just registered on an empty index, budget [max]. *)
Definition fresh (max : Z) : handler :=
  register (H := Posix.platform max) true "/cfg" [] empty_disk (inject_Z 1000000).

Definition peer : string := "peer".

(** A 20-byte identifier nobody knows. *)
Definition unknown_hash : string := "aaaaaaaaaaaaaaaaaaaa".

Definition get_metadata_msg : string :=
  String (ascii_of_nat 244) (Posix.bencode_value (BStr unknown_hash)).

(** A single-file torrent and its info-hash. *)
Definition info_dict : bvalue :=
  BDict [("length", BInt 5); ("name", BStr "a")].

Definition metadata : string :=
  Posix.bencode_value (BDict [("announce", BStr "url"); ("info", info_dict)]).

Definition good_hash : string := Posix.sha1 (Posix.bencode_value info_dict).

Definition metadata_msg (h : string) (payload : string) : string :=
  String (ascii_of_nat 243)
    (Posix.bencode_value (BDict [("metadata", BStr payload); ("torrent_hash", BStr h)])).

(** A payload of exactly 8 MiB, one of a byte more, and a disk holding
    both. *)
Definition eight_mib : string := replicate (Z.to_nat 8388608) "x".

Definition big_disk : filesystem :=
  mk_fs [("/cfg/torrent2/big", mk_file eight_mib true);
         ("/cfg/torrent2/bigger", mk_file (String "x" eight_mib) true)]
    ["/cfg/torrent2"] NoFault.

Definition big_store : handler :=
  register (H := Posix.platform 100) true "/cfg" [] big_disk (inject_Z 1000000).

(** The same handler on a disk that refuses every write, and on a full
    disk. *)
Definition fresh_on (f : disk_fault) : handler :=
  set_disk (fresh 100) (mk_fs [] [] f).

(** The same handler with its counter initialised, at 0. *)
Definition settled_on (f : disk_fault) : handler :=
  set_num_torrents (fresh_on f) 0.

(** A record whose creation date is [date]. *)
Definition dated (date : Z) : torrent :=
  mk_torrent "d0000000000000000000" (Some "/cfg/torrent2") (Some "d.torrent")
    (Some (mk_torrent_info (BStr "") (BInt 0) 1 (BStr "") (BStr "")
             (Some (BInt date))))
    [] 0 0 (Some 0) 0 0 (Some "unknown") None None.

(** The clock of the capacity scenarios: day 1000. *)
Definition day_1000 : Q := inject_Z (86400 * 1000).

(** The [i]-th record of a stocked index: created [i] days before the
    clock reading, so that its weight is [10^7 + 99000 + i]. *)
Definition record (i : nat) : torrent :=
  mk_torrent (String (ascii_of_nat i) "0000000000000000000")
    (Some "/cfg/torrent2") (Some (String (ascii_of_nat i) ".torrent"))
    (Some (mk_torrent_info (BStr "") (BInt 0) 1 (BStr "") (BStr "")
             (Some (BInt (86400 * (1000 - Z.of_nat i))))))
    [] 0 0 (Some 0) 0 0 (Some "unknown") None None.

Definition records (k : nat) : list torrent := map record (seq 0 k).

(** A handler registered on an index of [k] records, before its first
    capacity check. *)
Definition restarted (max : Z) (k : nat) : handler :=
  register (H := Posix.platform max) true "/cfg" (records k) empty_disk day_1000.

(** The same handler later on, its counter at [counter]. *)
Definition running (max : Z) (k : nat) (counter : Z) : handler :=
  set_num_torrents (restarted max k) counter.




End Scenario.

(* ------------------------------------------------------------------ *)
(** ** Vocabulary of the protocol and store properties *)
(* ------------------------------------------------------------------ *)

Section Wire.

Context `{P : Platform}.

(** The message [send_metadata_request] hands to the transport. *)
Definition request_message (torrent_hash : string) : string :=
  String GET_METADATA (bencode (BStr torrent_hash)).

(** The message [do_send_metadata] hands to the transport. *)
Definition response_message (torrent_hash torrent_data : string) : string :=
  String METADATA
    (bencode (BDict [("torrent_hash", BStr torrent_hash);
                     ("metadata", BStr torrent_data)])).

(** The file name [get_filename] derives from the identifier, and the
    one it falls back to when that name is taken. *)
Definition derived_name (torrent_hash : string) : string :=
  (sha_hex torrent_hash ++ ".torrent")%string.

Definition stamped_name (now : Q) (torrent_hash : string) : string :=
  (str_time now ++ "_" ++ derived_name torrent_hash)%string.

End Wire.

(** The handler after one more task was handed to the transport. *)
Definition sent (st : handler) (permid msg : string) : handler :=
  set_secure_overlay st (secure_overlay st ++ [(permid, msg)])%list.

(** The handler after one more call to the download helper, if there is
    one. *)
Definition notified (st : handler) (h : string) (metadata : bvalue) : handler :=
  match dlhelper st with
  | Some calls => set_dlhelper st (Some (calls ++ [(h, metadata)])%list)
  | None => st
  end.

(** The ['length'] an entry of [info['files']] adds to the total: its
    integer length, nothing when it has none. *)
Definition file_length (li : bvalue) : Z :=
  match li with
  | BDict d => match assoc "length" d with Some (BInt n) => n | _ => 0 end
  | _ => 0
  end.

(** An entry of [info['files']] the loop of [addTorrentToDB] accepts: a
    dictionary whose ['length'], if any, is an integer. *)
Definition plain_file (li : bvalue) : Prop :=
  exists d, li = BDict d
            /\ (assoc "length" d = None \/ exists n, assoc "length" d = Some (BInt n)).

(** The total the loop over [info['files']] arrives at. *)
Definition sum_lengths (l : list bvalue) : Z :=
  fold_right (fun li acc => file_length li + acc) 0 l.

(** [d.get(k, dflt)] on the entries of a dictionary. *)
Definition get_or (d : list (string * bvalue)) (k : string) (dflt : bvalue) : bvalue :=
  match assoc k d with Some v => v | None => dflt end.


(** The index after [addTorrent(h, t)]. *)
Definition upsert (db : list torrent) (h : string) (t : torrent) : list torrent :=
  (db_remove db h ++ [t])%list.

(** The handler after [addTorrentToDB] has stored the record [t] for [h]
    within the budget: the record in the index and in its flushed copy,
    the counter one higher. *)
Definition stored (st : handler) (h : string) (t : torrent) : handler :=
  mk_handler (config_dir st) (upsert (torrent_db st) h t)
    (upsert (torrent_db st) h t) (num_torrents st + 1) (torrent_list st)
    (disk st) (secure_overlay st) (dlhelper st) (clock st).

(** The length and the number of files [addTorrentToDB] works out from
    the entries [i] of ['info']: ['length'] as it stands and one file
    when the key is there, else what the loop over ['files'] gives, else
    nothing. *)
Definition content_size `{Platform} (i : list (string * bvalue)) : res (bvalue * Z) :=
  match assoc "length" i with
  | Some v => Ok (v, 1)
  | None =>
      match assoc "files" i with
      | Some files =>
          match count_files files with
          | Ok (length, nf) => Ok (BInt length, nf)
          | Raise e => Raise e
          end
      | None => Ok (BInt 0, 0)
      end
  end.

(** The record [addTorrentToDB] builds for the identifier [h] saved at
    [src], from the entries [m] of the metainfo and [i] of its ['info'],
    the key [namekey] of the display name, and the length and number of
    files it has worked out. *)
Definition fresh_record `{Platform} (src h namekey : string)
    (m i : list (string * bvalue)) (length : bvalue) (nf : Z) (now : Q) : torrent :=
  mk_torrent h (Some (fst (path_split src))) (Some (snd (path_split src)))
    (Some (mk_torrent_info (get_or i namekey (BStr "")) length nf
             (get_or m "announce" (BStr ""))
             (get_or m "announce-list" (BStr ""))
             (Some (get_or m "creation date" (BInt 0)))))
    (calculateCategory (BDict i) (get_or i namekey (BStr "")))
    0 (py_int now) (Some 0) 0 0 (Some "unknown") None None.

(** The disk once [dir] is there. *)
Definition with_dir (fs : filesystem) (dir : string) : filesystem :=
  if exists_path fs dir then fs
  else mk_fs (files fs) (dir :: dirs fs) (fault fs).

(** The part of the world the store leaves alone: the tasks handed to
    the transport, the calls received by the download helper, the
    storage directory and the clock. *)
Definition same_peers (st st' : handler) : Prop :=
  secure_overlay st' = secure_overlay st
  /\ dlhelper st' = dlhelper st
  /\ config_dir st' = config_dir st
  /\ clock st' = clock st.

(** A method body that leaves that part alone, however it ends. *)
Definition keeps_peers {A} (m : M A) : Prop :=
  forall st, same_peers st (snd (m st)).

(* ------------------------------------------------------------------ *)
(** ** Scenario data of the exchange *)
(* ------------------------------------------------------------------ *)

Module Exchange.

(** A handler in service: counter initialised at 0, empty index, empty
    disk without fault, budget 100. *)
Definition settled : handler := Scenario.settled_on NoFault.

(** The name and the path [save_torrent] gives the payload of
    [Scenario.good_hash]. *)
Definition saved_name : string :=
  "7083b557587066df56ccdbb7bda9b4ee41cf4f6c.torrent".

Definition saved_path : string :=
  "/cfg/torrent2/7083b557587066df56ccdbb7bda9b4ee41cf4f6c.torrent".

(** Metadata that decodes but has no ['info'] entry. *)
Definition no_info : string :=
  Posix.bencode_value (BDict [("announce", BStr "url")]).

(** The same handler after it has saved the payload of
    [Scenario.good_hash], and the name a second save gives the payload
    at the same clock reading. *)
Definition once_saved : handler :=
  snd (save_torrent (P := Posix.platform 100) Scenario.good_hash
         (BStr Scenario.metadata) settled).

Definition stamped_saved_name : string :=
  "1000000.0_7083b557587066df56ccdbb7bda9b4ee41cf4f6c.torrent".

(** A second peer, and its request for [Scenario.good_hash]. *)
Definition peer2 : string := "peer2".

Definition request : string :=
  String (ascii_of_nat 244) (Posix.bencode_value (BStr Scenario.good_hash)).

(** A handler whose index locates the record [Scenario.dated 0] at a
    file that cannot be read, and a request for that record. *)
Definition unreadable : handler :=
  register (H := Posix.platform 100) true "/cfg" [Scenario.dated 0]
    (mk_fs [("/cfg/torrent2/d.torrent", mk_file "secret" false)]
       ["/cfg/torrent2"] NoFault)
    (inject_Z 1000000).

Definition request_dated : string :=
  String (ascii_of_nat 244)
    (Posix.bencode_value (BStr "d0000000000000000000")).

(** A torrent of two files, of 3 and 4 bytes, and its metadata. *)
Definition two_files : list (string * bvalue) :=
  [("files", BList [BDict [("length", BInt 3); ("path", BList [BStr "a"])];
                    BDict [("length", BInt 4); ("path", BList [BStr "b"])]]);
   ("name", BStr "dir")].

Definition two_files_metainfo : list (string * bvalue) :=
  [("announce", BStr "url"); ("info", BDict two_files)].

Definition two_files_metadata : string :=
  Posix.bencode_value (BDict two_files_metainfo).

(** A record whose creation date is a string, an index holding it with
    three ordinary records over a budget of two, and metadata of
    [Scenario.info_dict] that carries such a date. *)
Definition undated : torrent :=
  mk_torrent "u0000000000000000000" (Some "/cfg/torrent2") (Some "u.torrent")
    (Some (mk_torrent_info (BStr "") (BInt 0) 1 (BStr "") (BStr "")
             (Some (BStr "soon"))))
    [] 0 0 (Some 0) 0 0 (Some "unknown") None None.

Definition blocked : handler :=
  set_num_torrents
    (register (H := Posix.platform 2) true "/cfg"
       (undated :: Scenario.records 3) Scenario.empty_disk Scenario.day_1000)
    3.

Definition undated_metainfo : list (string * bvalue) :=
  [("announce", BStr "url"); ("creation date", BStr "soon");
   ("info", Scenario.info_dict)].

Definition undated_metadata : string :=
  Posix.bencode_value (BDict undated_metainfo).

End Exchange.

(* ------------------------------------------------------------------ *)
(** ** The table models of the GUI: [TriblerGUI.widgets.tablecontentmodel] *)
(* ------------------------------------------------------------------ *)

Module Table.

(** The values the items carry: the scalars of a JSON answer.  [VNone]
    is [None]. *)
Inductive value : Type :=
| VNone
| VInt (z : Z)
| VStr (s : string).

Definition value_eqb (a b : value) : bool :=
  match a, b with
  | VNone, VNone => true
  | VInt x, VInt y => x =? y
  | VStr s, VStr t => String.eqb s t
  | _, _ => false
  end.

(** Python truth value. *)
Definition truth (v : value) : bool :=
  match v with
  | VNone => false
  | VInt z => negb (z =? 0)
  | VStr s => negb (String.eqb s "")
  end.

(** An item is a dictionary with string keys, kept as an association
    list whose first binding of a key is the live one. *)
Definition item : Type := list (string * value).

(** [item_uid_map]: a dictionary from unique ids to rows, kept the same
    way. *)
Definition uid_map : Type := list (value * nat).

Fixpoint lookup (k : value) (m : uid_map) : option nat :=
  match m with
  | [] => None
  | (k', row) :: m' => if value_eqb k k' then Some row else lookup k m'
  end.

(** [k in m] *)
Definition known (k : value) (m : uid_map) : bool :=
  match lookup k m with Some _ => true | None => false end.

(** [m[k] = row] *)
Definition store (k : value) (row : nat) (m : uid_map) : uid_map :=
  (k, row) :: m.

(** The signals of [QAbstractTableModel] the methods emit:
    [beginResetModel]/[endResetModel],
    [beginInsertRows(QModelIndex(), first, last)]/[endInsertRows] and
    [dataChanged] from [(row, 0)] to [(row, column)]. *)
Inductive signal : Type :=
| ModelReset
| RowsInserted (first last : Z)
| DataChanged (row column : nat).

(** The attributes of [RemoteTableModel] the methods below use, with the
    signals emitted so far. *)
Record model : Type := mk_model {
  data_items : list item;
  item_uid_map : uid_map;
  total_items : Z;
  emitted : list signal
}.

(** [RemoteTableModel.__init__] *)
Definition init : model := mk_model [] [] 0 [].

(** [TriblerContentModel.reset] followed by [RemoteTableModel.reset] *)
Definition reset (m : model) : model :=
  mk_model [] [] 0 (emitted m ++ [ModelReset])%list.

(** [TriblerContentModel.rowCount] *)
Definition rowCount (m : model) : Z := Z.of_nat (List.length (data_items m)).

Section RemoteTableModel.

(** The abstract method [get_item_uid]. *)
Variable get_item_uid : item -> value.

(** The loop [for item in new_items] of [add_items]. *)
Fixpoint scan (old_map : uid_map) (new_items : list item)
    (new_items_map : uid_map) (insert_index : nat) (unique_items : list item)
    : uid_map * nat * list item :=
  match new_items with
  | [] => (new_items_map, insert_index, unique_items)
  | item :: rest =>
      let item_uid := get_item_uid item in
      if truth item_uid && negb (known item_uid old_map) then
        scan old_map rest (store item_uid insert_index new_items_map)
          (S insert_index) (unique_items ++ [item])%list
      else scan old_map rest new_items_map insert_index unique_items
  end.

(** The loop [for item in self.data_items] of [add_items]. *)
Fixpoint shift (old_map : uid_map) (insert_index : nat) (items : list item)
    (new_items_map : uid_map) : uid_map :=
  match items with
  | [] => new_items_map
  | item :: rest =>
      let old_item_uid := get_item_uid item in
      match lookup old_item_uid old_map with
      | Some row =>
          shift old_map insert_index rest
            (store old_item_uid (insert_index + row) new_items_map)
      | None => shift old_map insert_index rest new_items_map
      end
  end.

Definition add_items (new_items : list item) (remote : bool) (m : model) : model :=
  match new_items with
  | [] => m
  | _ =>
      let insert_index := if negb remote then List.length (data_items m) else O in
      match scan (item_uid_map m) new_items [] insert_index [] with
      | (new_items_map, insert_index, unique_items) =>
          match unique_items with
          | [] => m
          | _ =>
              let new_items_map :=
                if remote
                then shift (item_uid_map m) insert_index (data_items m)
                       new_items_map
                else new_items_map in
              mk_model
                (if remote then unique_items ++ data_items m
                 else data_items m ++ unique_items)%list
                new_items_map (total_items m)
                (emitted m
                 ++ [RowsInserted 0 (Z.of_nat (List.length unique_items) - 1)])%list
          end
      end
  end.

End RemoteTableModel.

(** [TriblerContentModel.get_item_uid]; [str_of] is the conversion ["%s"]
    applies to a value. *)
Definition get_item_uid (str_of : value -> string) (item : item) : value :=
  match assoc "infohash" item with
  | Some v => v
  | None =>
      match assoc "public_key" item, assoc "id" item with
      | Some pk, Some id => VStr (str_of pk ++ ":" ++ str_of id)%string
      | _, _ => VNone
      end
  end.

(** [d.update] with the entries of [update_dict] as keyword arguments. *)
Definition update (d update_dict : item) : item := (update_dict ++ d)%list.

(** [l[row] = x] for a row in range. *)
Fixpoint set_row (l : list item) (row : nat) (x : item) : list item :=
  match l, row with
  | [], _ => []
  | _ :: l', O => x :: l'
  | y :: l', S row' => y :: set_row l' row' x
  end.

(** [TriblerContentModel.update_torrent_info], on a model with
    [columns] columns. *)
Definition update_torrent_info (columns : nat) (update_dict : item) (m : model)
    : res model :=
  match assoc "infohash" update_dict with
  | None => Raise KeyError
  | Some infohash =>
      match lookup infohash (item_uid_map m) with
      | None => Ok m
      | Some O => Ok m
      | Some row =>
          match nth_error (data_items m) row with
          | None => Raise IndexError
          | Some d =>
              Ok (mk_model (set_row (data_items m) row (update d update_dict))
                    (item_uid_map m) (total_items m)
                    (emitted m ++ [DataChanged row columns])%list)
          end
      end
  end.

(** The items of a batch [add_items] takes: those with a true unique id
    the map does not know. *)
Definition fresh (uid_of : item -> value) (old_map : uid_map) (new_items : list item)
    : list item :=
  filter (fun it => truth (uid_of it) && negb (known (uid_of it) old_map))
    new_items.

(** Every row the map gives holds an item of that unique id. *)
Definition consistent (uid_of : item -> value) (m : model) : Prop :=
  forall u row,
    lookup u (item_uid_map m) = Some row ->
    exists it, nth_error (data_items m) row = Some it /\ uid_of it = u.

(** A torrent item and a channel item. *)
Definition torrent_item (infohash name : string) : item :=
  [("infohash", VStr infohash); ("name", VStr name)].

Definition channel_item (public_key : string) (id : Z) : item :=
  [("public_key", VStr public_key); ("id", VInt id)].

(** ["%s"] on a value. *)
Definition str_of (v : value) : string :=
  match v with
  | VNone => "None"
  | VInt z => Posix.decimal z
  | VStr s => s
  end.

(** Two torrent items, a table that got them in one local batch, and an
    update for the first. *)
Definition item_a : item := torrent_item "aa" "first".

Definition item_b : item := torrent_item "bb" "second".

Definition one_row : model := add_items (get_item_uid str_of) [item_a] false init.

Definition two_rows : model :=
  add_items (get_item_uid str_of) [item_a; item_b] false init.

Definition rename_a : item := [("infohash", VStr "aa"); ("name", VStr "renamed")].

End Table.

(* ------------------------------------------------------------------ *)
(** ** The singleton: [MetadataHandler.__init__] and [getInstance] *)
(* ------------------------------------------------------------------ *)

Module Singleton.

(** The class attribute [MetadataHandler.__single], and the number of
    objects created so far.  An object is told from the others by its
    number in the order of creation. *)
Record class_state : Type := mk_class {
  single : option nat;
  created : nat
}.

(** The class as loaded: [__single = None]. *)
Definition loaded : class_state := mk_class None 0.

(** [MetadataHandler()]: the object is created and [__init__] runs on
    it.  An instance is a true value. *)
Definition construct (c : class_state) : res nat * class_state :=
  let self := created c in
  let c := mk_class (single c) (S (created c)) in
  match single c with
  | Some _ => (Raise RuntimeError, c)
  | None => (Ok self, mk_class (Some self) (created c))
  end.

(** [MetadataHandler.getInstance()]; the result [None] is Python's. *)
Definition getInstance (c : class_state) : res (option nat) * class_state :=
  match single c with
  | None =>
      match construct c with
      | (Ok _, c1) => (Ok (single c1), c1)
      | (Raise e, c1) => (Raise e, c1)
      end
  | Some _ => (Ok (single c), c)
  end.

(** The calls a program makes on the class, and their results in
    order. *)
Inductive call : Type := Construct | GetInstance.

Definition step (k : call) (c : class_state) : res (option nat) * class_state :=
  match k with
  | Construct =>
      match construct c with
      | (Ok self, c1) => (Ok (Some self), c1)
      | (Raise e, c1) => (Raise e, c1)
      end
  | GetInstance => getInstance c
  end.

Fixpoint run (calls : list call) (c : class_state)
    : list (call * res (option nat)) * class_state :=
  match calls with
  | [] => ([], c)
  | k :: rest =>
      let (r, c1) := step k c in
      let (out, c2) := run rest c1 in
      ((k, r) :: out, c2)
  end.

End Singleton.

(* ------------------------------------------------------------------ *)
(** ** The concrete platform on known values *)
(* ------------------------------------------------------------------ *)

(** The FIPS 180-1 test vectors. *)
Example sha1_abc :
  Posix.hexlify (Posix.sha1 "abc") = "a9993e364706816aba3e25717850c26c9cd0d89d".
Proof. vm_compute. reflexivity. Qed.

Example sha1_two_blocks :
  Posix.hexlify
    (Posix.sha1 "abcdbcdecdefdefgefghfghighijhijkijkljklmklmnlmnomnopnopq")
  = "84983e441c3bd26ebaae4aa1f95129e5e54670f1".
Proof. vm_compute. reflexivity. Qed.

Example bencode_sorts_keys :
  Posix.bencode_value
    (BDict [("info", BDict [("name", BStr "a"); ("length", BInt 5)]);
            ("announce", BStr "url")])
  = "d8:announce3:url4:infod6:lengthi5e4:name1:aee".
Proof. vm_compute. reflexivity. Qed.

Example bdecode_metadata :
  Posix.bdecode_value Scenario.metadata
  = Ok (BDict [("announce", BStr "url"); ("info", Scenario.info_dict)]).
Proof. vm_compute. reflexivity. Qed.

Example bdecode_rejects :
  Posix.bdecode_value "" = Raise ValueError
  /\ Posix.bdecode_value "i03e" = Raise ValueError
  /\ Posix.bdecode_value "i-0e" = Raise ValueError
  /\ Posix.bdecode_value "5:abc" = Raise ValueError
  /\ Posix.bdecode_value "i1ei2e" = Raise ValueError.
Proof. vm_compute. repeat split. Qed.

Example split_join :
  Posix.split (Posix.join "/cfg/torrent2" "a.torrent")
  = ("/cfg/torrent2", "a.torrent").
Proof. vm_compute. reflexivity. Qed.

(* ------------------------------------------------------------------ *)
(** ** Properties: the eviction weight *)
(* ------------------------------------------------------------------ *)


Lemma get_weight_eq now t date :
  creation_date t = BInt date ->
  get_weight now t =
  Ok (status_value (status_of t) * 10^7 + Z.min (retry_of t) 99 * 10^5
      + (99 - Z.min (relevance_of t) 99) * 10^3
      + Z.min (days_since now date) 999).
Proof.
  unfold creation_date, get_weight, status_of, retry_of, relevance_of.
  intros ->. reflexivity.
Qed.



(* ------------------------------------------------------------------ *)
(** ** Properties: reading a stored torrent *)
(* ------------------------------------------------------------------ *)

Lemma length_replicate n c : String.length (replicate n c) = n.
Proof. induction n; simpl; congruence. Qed.

Lemma len_replicate z c : 0 <= z -> len (replicate (Z.to_nat z) c) = z.
Proof. intros Hz. unfold len. rewrite length_replicate. lia. Qed.

Lemma gtb_false a b : a <= b -> (a >? b) = false.
Proof. intros. destruct (Z.gtb_spec a b); [lia|reflexivity]. Qed.

Lemma gtb_true a b : b < a -> (a >? b) = true.
Proof. intros. destruct (Z.gtb_spec a b); [reflexivity|lia]. Qed.

(** C7.  [read_torrent] returns the bytes of every readable file of at
    most 8 MiB and [None] for every file above that size or that cannot
    be opened (missing or unreadable); in particular a file of exactly
    8*1024*1024 bytes is returned and one of 8*1024*1024 + 1 bytes is not. *)
Theorem read_torrent_size_bound (st : handler) (path : string) :
  (forall data,
      assoc path (files (disk st)) = Some (mk_file data true) ->
      len data <= 8 * 1024 * 1024 ->
      read_torrent st path = Some data)
  /\ (forall data,
      assoc path (files (disk st)) = Some (mk_file data true) ->
      8 * 1024 * 1024 < len data ->
      read_torrent st path = None)
  /\ (assoc path (files (disk st)) = None -> read_torrent st path = None)
  /\ (forall data,
      assoc path (files (disk st)) = Some (mk_file data false) ->
      read_torrent st path = None)
  /\ (forall data,
      assoc path (files (disk st)) = Some (mk_file data true) ->
      len data = 8388608 -> read_torrent st path = Some data)
  /\ (forall data,
      assoc path (files (disk st)) = Some (mk_file data true) ->
      len data = 8388608 + 1 -> read_torrent st path = None).
Proof.
  unfold read_torrent, read_file, Max_Torrent_Size.
  repeat split; intros; rewrite H; cbn [f_readable f_data];
    try reflexivity.
  - rewrite gtb_false by lia. reflexivity.
  - rewrite gtb_true by lia. reflexivity.
  - rewrite gtb_false by lia. reflexivity.
  - rewrite gtb_true by lia. reflexivity.
Qed.

Lemma len_String c s : len (String c s) = len s + 1.
Proof. unfold len. cbn [String.length]. lia. Qed.

Lemma read_torrent_size_bound_witness :
  read_torrent Scenario.big_store "/cfg/torrent2/big" = Some Scenario.eight_mib
  /\ read_torrent Scenario.big_store "/cfg/torrent2/bigger" = None.
Proof.
  pose proof (read_torrent_size_bound Scenario.big_store "/cfg/torrent2/big")
    as (_ & _ & _ & _ & Hat & _).
  pose proof (read_torrent_size_bound Scenario.big_store "/cfg/torrent2/bigger")
    as (_ & _ & _ & _ & _ & Habove).
  split.
  - apply Hat; [reflexivity|]. apply len_replicate. lia.
  - apply (Habove (String "x" Scenario.eight_mib)); [reflexivity|].
    rewrite len_String. unfold Scenario.eight_mib.
    rewrite len_replicate by lia. reflexivity.
Defined.


(* ------------------------------------------------------------------ *)
(** ** Properties: the message handlers *)
(* ------------------------------------------------------------------ *)

Lemma isValidInfohash_BStr h : len h = 20 -> isValidInfohash (BStr h) = true.
Proof. intros H. unfold isValidInfohash. rewrite H. reflexivity. Qed.

Section Protocol.

Context `{P : Platform}.

(** The dispatcher hands a METADATA message to [got_metadata] and a
    GET_METADATA message to [send_metadata]. *)
Lemma handleMessage_METADATA (permid payload : string) :
  GET_METADATA <> METADATA ->
  handleMessage permid (String METADATA payload)
  = got_metadata permid (String METADATA payload).
Proof.
  intros Hne. unfold handleMessage.
  destruct (Ascii.eqb_spec METADATA GET_METADATA) as [Heq|_];
    [now elim Hne|].
  now rewrite Ascii.eqb_refl.
Qed.

Lemma handleMessage_GET_METADATA (permid payload : string) :
  handleMessage permid (String GET_METADATA payload)
  = send_metadata permid (String GET_METADATA payload).
Proof. unfold handleMessage. now rewrite Ascii.eqb_refl. Qed.

(** C1 (as amended).  For every inbound GET_METADATA message carrying a
    well-formed, valid identifier that is unknown locally ([find_torrent]
    gives [None]), the handler sends no outbound message, changes nothing
    else either, and returns [False]. *)
Theorem send_metadata_unknown (conn message h : string) (st : handler) :
  bdecode (tail_str message) = Ok (BStr h) ->
  len h = 20 ->
  find_torrent st h = None ->
  send_metadata conn message st = (Ok false, st)
  /\ (forall payload,
        message = String GET_METADATA payload ->
        handleMessage conn message st = (Ok false, st)).
Proof.
  intros Hdec Hlen Hfind.
  assert (Hsend : send_metadata conn message st = (Ok false, st)).
  { unfold send_metadata.
    rewrite Hdec, (isValidInfohash_BStr h Hlen). cbn [negb].
    unfold bind, get. rewrite Hfind. reflexivity. }
  split; [exact Hsend|].
  intros payload ->. now rewrite handleMessage_GET_METADATA.
Qed.

(** What [valid_metadata] reads from the payload: the decoded metainfo's
    ['info'] entry. *)
Lemma valid_metadata_eq (h : string) (metadata : bvalue) :
  valid_metadata h metadata =
  match info_of metadata with
  | Ok info => Ok (String.eqb (sha (bencode info)) h)
  | Raise e => Raise e
  end.
Proof.
  unfold valid_metadata, info_of.
  destruct (py_bdecode metadata) as [metainfo|e]; [|reflexivity].
  destruct (py_getitem metainfo "info") as [info|e]; [|reflexivity].
  destruct (String.eqb (sha (bencode info)) h); reflexivity.
Qed.

(** C3 (as amended).  On a payload that does not decode, or whose decoded
    value has no ['info'] entry, [valid_metadata] raises: it returns
    neither [False] nor [True].  Its caller [got_metadata] catches the
    exception, returns [False] and leaves the handler as it was. *)
Theorem valid_metadata_raises_to_caller
    (conn message h : string) (d : list (string * bvalue))
    (metadata : bvalue) (e : exn) (st : handler) :
  info_of metadata = Raise e ->
  bdecode (tail_str message) = Ok (BDict d) ->
  assoc "torrent_hash" d = Some (BStr h) ->
  len h = 20 ->
  assoc "metadata" d = Some metadata ->
  valid_metadata h metadata = Raise e
  /\ got_metadata conn message st = (Ok false, st).
Proof.
  intros Hinfo Hdec Hh Hlen Hm.
  assert (Hv : valid_metadata h metadata = Raise e).
  { rewrite valid_metadata_eq, Hinfo. reflexivity. }
  split; [exact Hv|].
  unfold got_metadata. rewrite Hdec.
  unfold try_except, bind, lift, py_getitem. rewrite Hh.
  rewrite (isValidInfohash_BStr h Hlen). cbn [negb].
  rewrite Hm, Hv. reflexivity.
Qed.

(** C8.  For every inbound METADATA message whose [torrent_hash] field
    differs from the SHA-1 of the bencoded ['info'] entry of the embedded
    metadata, [got_metadata] returns [False] and leaves the handler and
    its world untouched: nothing is saved, the index and its record count
    are unchanged. *)
Theorem got_metadata_hash_mismatch
    (conn message : string) (d : list (string * bvalue))
    (torrent_hash metadata info : bvalue) (st : handler) :
  bdecode (tail_str message) = Ok (BDict d) ->
  assoc "torrent_hash" d = Some torrent_hash ->
  assoc "metadata" d = Some metadata ->
  info_of metadata = Ok info ->
  torrent_hash <> BStr (sha (bencode info)) ->
  got_metadata conn message st = (Ok false, st)
  /\ List.length (torrent_db (snd (got_metadata conn message st)))
     = List.length (torrent_db st)
  /\ (forall payload,
        GET_METADATA <> METADATA ->
        message = String METADATA payload ->
        handleMessage conn message st = (Ok false, st)).
Proof.
  intros Hdec Hh Hm Hinfo Hne.
  assert (Hgot : got_metadata conn message st = (Ok false, st)).
  { unfold got_metadata. rewrite Hdec.
    unfold try_except, bind, lift, py_getitem. rewrite Hh.
    destruct (isValidInfohash torrent_hash) eqn:Hvalid; [|reflexivity].
    cbn [negb].
    destruct torrent_hash as [z|h|l|d']; try reflexivity.
    rewrite Hm, valid_metadata_eq, Hinfo.
    destruct (String.eqb_spec (sha (bencode info)) h) as [Heq|_].
    - exfalso. apply Hne. now rewrite Heq.
    - reflexivity. }
  rewrite Hgot. split; [reflexivity|]. split; [reflexivity|].
  intros payload Hne' ->. now rewrite handleMessage_METADATA.
Qed.

End Protocol.

(** C1, counterexample: a valid identifier the empty index does not know;
    the handler answers [False], not [True]. *)
Lemma get_metadata_unknown_is_refused :
  isValidInfohash (BStr Scenario.unknown_hash) = true
  /\ find_torrent (P := Posix.platform 100) (Scenario.fresh 100)
       Scenario.unknown_hash = None
  /\ handleMessage (P := Posix.platform 100) Scenario.peer
       Scenario.get_metadata_msg (Scenario.fresh 100)
     = (Ok false, Scenario.fresh 100).
Proof. vm_compute. repeat split. Qed.

Lemma send_metadata_unknown_witness :
  send_metadata (P := Posix.platform 100) Scenario.peer
    Scenario.get_metadata_msg (Scenario.fresh 100)
  = (Ok false, Scenario.fresh 100).
Proof.
  apply (send_metadata_unknown (P := Posix.platform 100) Scenario.peer
           Scenario.get_metadata_msg Scenario.unknown_hash (Scenario.fresh 100));
    reflexivity.
Defined.

(** C3, counterexample: on the empty payload and on a payload without
    ['info'] the validator raises instead of returning [False]. *)
Lemma valid_metadata_raises_on_malformed :
  valid_metadata (P := Posix.platform 100) Scenario.good_hash (BStr "")
  = Raise ValueError
  /\ valid_metadata (P := Posix.platform 100) Scenario.good_hash (BStr "de")
     = Raise KeyError
  /\ valid_metadata (P := Posix.platform 100) Scenario.good_hash (BStr "i7e")
     = Raise TypeError.
Proof. vm_compute. repeat split. Qed.

Lemma valid_metadata_raises_to_caller_witness :
  valid_metadata (P := Posix.platform 100) Scenario.good_hash (BStr "de")
  = Raise KeyError
  /\ got_metadata (P := Posix.platform 100) Scenario.peer
       (Scenario.metadata_msg Scenario.good_hash "de") (Scenario.fresh 100)
     = (Ok false, Scenario.fresh 100).
Proof.
  apply (valid_metadata_raises_to_caller (P := Posix.platform 100)
           Scenario.peer (Scenario.metadata_msg Scenario.good_hash "de")
           Scenario.good_hash
           [("metadata", BStr "de"); ("torrent_hash", BStr Scenario.good_hash)]
           (BStr "de") KeyError (Scenario.fresh 100));
    vm_compute; reflexivity.
Defined.

Lemma got_metadata_hash_mismatch_witness :
  got_metadata (P := Posix.platform 100) Scenario.peer
    (Scenario.metadata_msg Scenario.unknown_hash Scenario.metadata)
    (Scenario.fresh 100)
  = (Ok false, Scenario.fresh 100).
Proof.
  apply (got_metadata_hash_mismatch (P := Posix.platform 100) Scenario.peer
           (Scenario.metadata_msg Scenario.unknown_hash Scenario.metadata)
           [("metadata", BStr Scenario.metadata);
            ("torrent_hash", BStr Scenario.unknown_hash)]
           (BStr Scenario.unknown_hash) (BStr Scenario.metadata)
           Scenario.info_dict (Scenario.fresh 100)).
  - vm_compute; reflexivity.
  - reflexivity.
  - reflexivity.
  - vm_compute; reflexivity.
  - vm_compute. discriminate.
Defined.

(* ------------------------------------------------------------------ *)
(** ** Properties: ranking and deleting *)
(* ------------------------------------------------------------------ *)

Lemma insert_desc_perm t l : Permutation (insert_desc t l) (t :: l).
Proof.
  induction l as [|u l IH]; simpl; [reflexivity|].
  destruct (weight_key u <=? weight_key t); [reflexivity|].
  rewrite IH. apply perm_swap.
Qed.

Lemma sort_desc_perm l : Permutation (sort_desc l) l.
Proof.
  induction l as [|t l IH]; simpl; [reflexivity|].
  rewrite insert_desc_perm. now constructor.
Qed.




Lemma get_weight_numeric now t :
  numeric_date t -> get_weight now t = Ok (weight_at now t).
Proof.
  intros [date Hd]. unfold weight_at.
  now rewrite (get_weight_eq now t date Hd).
Qed.

Lemma weigh_numeric now l :
  Forall numeric_date l ->
  weigh now l = (map (fun t => set_weight t (weight_at now t)) l, None).
Proof.
  induction 1 as [|t l Ht _ IH]; simpl; [reflexivity|].
  now rewrite (get_weight_numeric now t Ht), IH.
Qed.

Lemma has_weight_weighted now l :
  forallb has_weight (map (fun t => set_weight t (weight_at now t)) l) = true.
Proof. induction l; simpl; auto. Qed.

Lemma without_cons db h hs :
  without db (h :: hs) = without (db_remove db h) hs.
Proof.
  unfold without, db_remove.
  induction db as [|t db IH]; [reflexivity|]. cbn [filter].
  change (mem (infohash t) (h :: hs))
    with (String.eqb (infohash t) h || mem (infohash t) hs)%bool.
  destruct (String.eqb (infohash t) h); cbn [negb orb filter]; [exact IH|].
  destruct (mem (infohash t) hs); cbn [negb]; now rewrite IH.
Qed.

Lemma without_nil db : without db [] = db.
Proof.
  unfold without. induction db; simpl; [reflexivity|now f_equal].
Qed.

Lemma db_remove_keys db h :
  map infohash (db_remove db h)
  = filter (fun k => negb (String.eqb k h)) (map infohash db).
Proof.
  unfold db_remove. induction db as [|t db IH]; simpl; [reflexivity|].
  destruct (String.eqb (infohash t) h); simpl; now rewrite IH.
Qed.

Lemma db_remove_length db h :
  distinct db -> In h (map infohash db) ->
  S (List.length (db_remove db h)) = List.length db.
Proof.
  unfold distinct, db_remove.
  induction db as [|t db IH]; simpl; intros Hnd Hin; [contradiction|].
  inversion Hnd as [|? ? Hnotin Hnd']; subst.
  destruct (String.eqb_spec (infohash t) h) as [Heq|Hne]; simpl.
  - f_equal. subst h.
    clear IH Hin Hnd Hnd'. induction db as [|u db IH]; simpl; [reflexivity|].
    destruct (String.eqb_spec (infohash u) (infohash t)) as [Heq|_]; simpl.
    + exfalso. apply Hnotin. left. exact Heq.
    + f_equal. apply IH. intros Hin. apply Hnotin. now right.
  - f_equal. apply IH; [exact Hnd'|]. destruct Hin; [contradiction|assumption].
Qed.

Lemma db_remove_distinct db h : distinct db -> distinct (db_remove db h).
Proof.
  unfold distinct. rewrite db_remove_keys. apply NoDup_filter.
Qed.

Lemma without_length db hs :
  distinct db -> NoDup hs -> incl hs (map infohash db) ->
  (List.length (without db hs) + List.length hs = List.length db)%nat.
Proof.
  revert db. induction hs as [|h hs IH]; intros db Hd Hnd Hincl.
  - rewrite without_nil. simpl. lia.
  - rewrite without_cons. inversion Hnd as [|? ? Hnotin Hnd']; subst.
    assert (Hin : In h (map infohash db)) by (apply Hincl; now left).
    pose proof (db_remove_length db h Hd Hin) as Hlen.
    rewrite <- Hlen. simpl.
    rewrite <- (IH (db_remove db h)); [lia| |exact Hnd'|].
    + now apply db_remove_distinct.
    + intros k Hk. rewrite db_remove_keys. apply filter_In. split.
      * apply Hincl. now right.
      * destruct (String.eqb_spec k h) as [->|_]; [contradiction|reflexivity].
Qed.

Lemma mem_In k l : mem k l = true <-> In k l.
Proof.
  unfold mem. rewrite existsb_exists. split.
  - intros (x & Hx & Heq). apply String.eqb_eq in Heq. now subst.
  - intros H. exists k. split; [exact H|apply String.eqb_refl].
Qed.


Lemma In_firstn {A} (n : nat) (l : list A) x : In x (firstn n l) -> In x l.
Proof.
  intros H. rewrite <- (firstn_skipn n l). apply in_or_app. now left.
Qed.

Lemma div10_bounds m : 0 <= m -> 0 <= m / 10 <= m.
Proof.
  intros Hm. split; [apply Z.div_pos; lia|].
  apply Z.div_le_upper_bound; lia.
Qed.

Lemma if_run {A} (c : bool) (f g : M A) (st : handler) :
  (if c then f else g) st = if c then f st else g st.
Proof. now destruct c. Qed.

Lemma distinctb_sound db :
  distinctb (map infohash db) = true -> distinct db.
Proof.
  unfold distinct. induction (map infohash db) as [|h l IH]; simpl.
  - constructor.
  - rewrite andb_true_iff, negb_true_iff. intros [Hm Hd].
    constructor; [|now apply IH].
    intros Hin. apply mem_In in Hin. congruence.
Qed.

Lemma numeric_dateb_sound db :
  forallb numeric_dateb db = true -> Forall numeric_date db.
Proof.
  rewrite forallb_forall, Forall_forall. intros H t Ht.
  specialize (H t Ht). unfold numeric_dateb, numeric_date in *.
  destruct (creation_date t) as [z| | |]; try discriminate. now exists z.
Qed.

Section Capacity.

Context `{P : Platform}.

Lemma deleteTorrent_run h st :
  fst (deleteTorrent h true st) = Ok tt
  /\ torrent_db (snd (deleteTorrent h true st)) = db_remove (torrent_db st) h
  /\ num_torrents (snd (deleteTorrent h true st)) = num_torrents st
  /\ torrent_list (snd (deleteTorrent h true st)) = torrent_list st.
Proof.
  unfold deleteTorrent, modify. cbn [fst snd].
  destruct (getTorrent (torrent_db st) h) as [t|]; [|repeat split].
  destruct (payload_path t); repeat split.
Qed.

Lemma delete_each_run l st :
  fst (delete_each l st) = Ok tt
  /\ torrent_db (snd (delete_each l st))
     = without (torrent_db st) (map infohash l)
  /\ num_torrents (snd (delete_each l st)) = num_torrents st
  /\ torrent_list (snd (delete_each l st)) = torrent_list st.
Proof.
  revert st. induction l as [|t l IH]; intros st.
  - cbn. rewrite without_nil. repeat split.
  - cbn [delete_each map]. unfold bind.
    destruct (deleteTorrent_run (infohash t) st) as (Hr & Hdb & Hn & Hl).
    destruct (deleteTorrent (infohash t) true st) as [r st1].
    cbn [fst snd] in *. subst r.
    destruct (IH st1) as (Hr' & Hdb' & Hn' & Hl').
    rewrite without_cons, <- Hdb, <- Hn, <- Hl. repeat split; assumption.
Qed.

(** With numeric dates throughout the snapshot, [limit_space] stores the
    ranked snapshot and deletes the slice [victims]. *)
Lemma limit_space_eq st :
  Forall numeric_date (torrent_list st) ->
  limit_space st
  = delete_each (victims st) (set_torrent_list st (ranked st)).
Proof.
  intros Hnum. unfold limit_space, bind, get.
  rewrite (weigh_numeric (clock st) (torrent_list st) Hnum).
  unfold modify, lift, sort_dictlist.
  rewrite has_weight_weighted. reflexivity.
Qed.

Lemma limit_space_run st :
  Forall numeric_date (torrent_list st) ->
  fst (limit_space st) = Ok tt
  /\ torrent_db (snd (limit_space st))
     = without (torrent_db st) (map infohash (victims st))
  /\ num_torrents (snd (limit_space st)) = num_torrents st
  /\ torrent_list (snd (limit_space st)) = ranked st.
Proof.
  intros Hnum. rewrite (limit_space_eq st Hnum).
  destruct (delete_each_run (victims st) (set_torrent_list st (ranked st)))
    as (Hr & Hdb & Hn & Hl).
  repeat split; assumption.
Qed.

Lemma ranked_keys st :
  Permutation (map infohash (ranked st)) (map infohash (torrent_list st)).
Proof.
  unfold ranked. rewrite sort_desc_perm, <- Permutation_rev, map_map.
  cbn [set_weight infohash]. reflexivity.
Qed.

Lemma ranked_length st :
  List.length (ranked st) = List.length (torrent_list st).
Proof.
  rewrite <- (length_map infohash (ranked st)),
          <- (length_map infohash (torrent_list st)).
  apply Permutation_length, ranked_keys.
Qed.

Lemma victims_keys_NoDup st :
  distinct (torrent_list st) -> NoDup (map infohash (victims st)).
Proof.
  intros Hd. unfold victims.
  assert (Hr : NoDup (map infohash (ranked st))).
  { eapply Permutation_NoDup; [symmetry; apply ranked_keys|exact Hd]. }
  rewrite <- (firstn_skipn
    (Z.to_nat (num_delete_of (num_torrents st) max_num_torrents)) (ranked st)),
    map_app in Hr.
  now apply NoDup_app_remove_r in Hr.
Qed.

Lemma victims_keys_incl st :
  incl (map infohash (victims st)) (map infohash (torrent_list st)).
Proof.
  intros k Hk. eapply Permutation_in; [apply ranked_keys|].
  unfold victims in Hk. rewrite in_map_iff in *.
  destruct Hk as (t & Ht & Hin). exists t. split; [exact Ht|].
  eapply In_firstn; exact Hin.
Qed.


Lemma check_overflow_step frames update st :
  check_overflow_rec (S frames) update st
  = match (if num_torrents st <? 0
           then check_overflow_rec frames false (recount st)
           else (Ok tt, st)) with
    | (Ok _, st1) => count_and_check update st1
    | (Raise e, st1) => (Raise e, st1)
    end.
Proof.
  cbn [check_overflow_rec]. unfold bind at 1 2. unfold get.
  rewrite if_run.
  assert (Htail : forall st1,
    (modify (fun st => set_num_torrents st (num_torrents st + 1)) ;;
     st <- get ;;
     if num_torrents st >? max_num_torrents then
       (if update then
          modify (fun st => set_torrent_list st (getRecommendedTorrents (torrent_db st))) ;;
          modify (fun st => set_num_torrents st (Z.of_nat (List.length (torrent_list st))))
        else ret tt) ;;
       st <- get ;;
       if num_torrents st >? max_num_torrents then limit_space
       else ret tt
     else ret tt) st1 = count_and_check update st1).
  { intros st1. unfold bind, get, ret, modify, count_and_check. cbv zeta.
    destruct update; rewrite !if_run; reflexivity. }
  destruct (num_torrents st <? 0).
  - unfold bind at 1 2. unfold modify at 1 2.
    change (set_num_torrents
              (set_torrent_list st (getRecommendedTorrents (torrent_db st)))
              (Z.of_nat (List.length (torrent_list
                 (set_torrent_list st (getRecommendedTorrents (torrent_db st)))))))
      with (recount st).
    destruct (check_overflow_rec frames false (recount st)) as [[[]|e] st1];
      [apply Htail|reflexivity].
  - unfold ret at 1. apply Htail.
Qed.

Lemma check_overflow_counted frames update st :
  0 <= num_torrents st ->
  check_overflow_rec (S frames) update st = count_and_check update st.
Proof.
  intros Hn. rewrite check_overflow_step.
  destruct (Z.ltb_spec (num_torrents st) 0) as [Hneg|_]; [lia|reflexivity].
Qed.

Lemma check_overflow_first frames update st :
  num_torrents st < 0 ->
  check_overflow_rec (S (S frames)) update st
  = match count_and_check false (recount st) with
    | (Ok _, st1) => count_and_check update st1
    | (Raise e, st1) => (Raise e, st1)
    end.
Proof.
  intros Hn. rewrite check_overflow_step.
  destruct (Z.ltb_spec (num_torrents st) 0) as [_|Hpos]; [|lia].
  rewrite check_overflow_counted; [reflexivity|cbn; lia].
Qed.

Lemma check_overflow_frames frames update st :
  check_overflow_rec (S (S frames)) update st
  = check_overflow_rec 2 update st.
Proof.
  destruct (Z.lt_ge_cases (num_torrents st) 0) as [Hneg|Hpos].
  - now rewrite !check_overflow_first.
  - now rewrite !check_overflow_counted.
Qed.

Lemma check_overflow_eq update st :
  check_overflow update st = check_overflow_rec 2 update st.
Proof. apply (check_overflow_frames 998). Qed.

Lemma count_and_check_below update st :
  num_torrents st + 1 <= max_num_torrents ->
  count_and_check update st
  = (Ok tt, set_num_torrents st (num_torrents st + 1)).
Proof.
  intros H. unfold count_and_check. cbn [num_torrents set_num_torrents].
  now rewrite gtb_false.
Qed.

Lemma count_and_check_recount st :
  max_num_torrents < num_torrents st + 1 ->
  Z.of_nat (List.length (torrent_db st)) <= max_num_torrents ->
  count_and_check true st = (Ok tt, recount st).
Proof.
  intros H1 H2. unfold count_and_check.
  cbn [num_torrents set_num_torrents recount torrent_db].
  rewrite gtb_true by exact H1. now rewrite gtb_false.
Qed.

Lemma count_and_check_evict st :
  max_num_torrents < num_torrents st + 1 ->
  max_num_torrents < Z.of_nat (List.length (torrent_db st)) ->
  count_and_check true st = limit_space (recount st).
Proof.
  intros H1 H2. unfold count_and_check.
  cbn [num_torrents set_num_torrents recount torrent_db].
  rewrite gtb_true by exact H1. now rewrite gtb_true.
Qed.

Lemma count_and_check_evict_stale st :
  max_num_torrents < num_torrents st + 1 ->
  count_and_check false st
  = limit_space (set_num_torrents st (num_torrents st + 1)).
Proof.
  intros H1. unfold count_and_check.
  cbn [num_torrents set_num_torrents].
  now rewrite !gtb_true.
Qed.

Lemma num_delete_of_max n max :
  num_delete_of n max = Z.max 1 (n - max + max / 10).
Proof.
  unfold num_delete_of. cbv zeta.
  destruct (Z.leb_spec (n - max + max / 10) 0); lia.
Qed.

Lemma victims_length st :
  Z.of_nat (List.length (victims st))
  = Z.min (num_delete_of (num_torrents st) max_num_torrents)
          (Z.of_nat (List.length (torrent_list st))).
Proof.
  unfold victims. rewrite length_firstn, ranked_length.
  pose proof (num_delete_of_max (num_torrents st) max_num_torrents). lia.
Qed.

(** What an eviction pass leaves in an index with one record per
    identifier, when the snapshot is the index. *)
Lemma limit_space_count st :
  torrent_list st = torrent_db st ->
  distinct (torrent_db st) ->
  Forall numeric_date (torrent_db st) ->
  fst (limit_space st) = Ok tt
  /\ num_torrents (snd (limit_space st)) = num_torrents st
  /\ torrent_db (snd (limit_space st))
     = without (torrent_db st) (map infohash (victims st))
  /\ Z.of_nat (List.length (torrent_db (snd (limit_space st))))
     = Z.of_nat (List.length (torrent_db st))
       - Z.min (num_delete_of (num_torrents st) max_num_torrents)
               (Z.of_nat (List.length (torrent_db st))).
Proof.
  intros Hl Hd Hnum.
  destruct (limit_space_run st) as (Hr & Hdb & Hn & _);
    [now rewrite Hl|].
  repeat split; try assumption.
  rewrite Hdb.
  pose proof (without_length (torrent_db st) (map infohash (victims st)) Hd)
    as Hlen.
  rewrite length_map in Hlen.
  pose proof (victims_length st) as Hv. rewrite Hl in Hv.
  rewrite <- Hv.
  assert (Hnd : NoDup (map infohash (victims st)))
    by (apply victims_keys_NoDup; now rewrite Hl).
  assert (Hincl : incl (map infohash (victims st)) (map infohash (torrent_db st)))
    by (rewrite <- Hl; apply victims_keys_incl).
  specialize (Hlen Hnd Hincl). lia.
Qed.

(** C9 (as amended).  On the first capacity check after registration
    (counter still negative) the counter is set to the number [n] of
    records the index lists and is then incremented twice, once in the
    recursive call and once in the original invocation.  When
    [n + 2 <= max_num_torrents] the check completes with the counter at
    [n + 2] and the index untouched.  When [n + 2 > max_num_torrents] the
    second increment sends the original invocation to the index again, and
    the check completes with the counter equal to the number of records
    then in the index. *)
Theorem first_check_counter (st : handler) :
  num_torrents st < 0 ->
  (Z.of_nat (List.length (torrent_db st)) + 2 <= max_num_torrents ->
   check_overflow true st
   = (Ok tt, set_num_torrents (recount st)
               (Z.of_nat (List.length (torrent_db st)) + 2)))
  /\ (max_num_torrents < Z.of_nat (List.length (torrent_db st)) + 2 ->
      0 <= max_num_torrents ->
      distinct (torrent_db st) ->
      Forall numeric_date (torrent_db st) ->
      fst (check_overflow true st) = Ok tt
      /\ num_torrents (snd (check_overflow true st))
         = Z.of_nat (List.length (torrent_db (snd (check_overflow true st))))).
Proof.
  intros Hneg. rewrite check_overflow_eq, (check_overflow_first 0 true st Hneg).
  set (n := Z.of_nat (List.length (torrent_db st))).
  assert (Hn : num_torrents (recount st) = n) by reflexivity.
  split.
  - intros Hlow.
    rewrite count_and_check_below by (rewrite Hn; lia).
    rewrite count_and_check_below
      by (cbn [num_torrents set_num_torrents]; rewrite Hn; lia).
    cbn [num_torrents set_num_torrents]. rewrite Hn.
    unfold set_num_torrents. cbn. do 2 f_equal. lia.
  - intros Hhigh Hmax Hd Hnum.
    pose proof (div10_bounds max_num_torrents Hmax) as Hdiv.
    destruct (Z.le_gt_cases (n + 1) max_num_torrents) as [Hle|Hgt].
    + rewrite count_and_check_below by (rewrite Hn; lia).
      rewrite count_and_check_recount.
      * split; reflexivity.
      * cbn [num_torrents set_num_torrents]. rewrite Hn. lia.
      * cbn [torrent_db set_num_torrents recount set_torrent_list].
        fold n. lia.
    + rewrite count_and_check_evict_stale by (rewrite Hn; lia).
      set (st1 := set_num_torrents (recount st) (num_torrents (recount st) + 1)).
      destruct (limit_space_count st1) as (Hr & Hc & _ & Hlen);
        [reflexivity|exact Hd|exact Hnum|].
      destruct (limit_space st1) as [r st2]. cbn [fst snd] in *. subst r.
      assert (Hk : num_delete_of (num_torrents st1) max_num_torrents
                   = n + 1 - max_num_torrents + max_num_torrents / 10).
      { rewrite num_delete_of_max.
        change (num_torrents st1) with (n + 1). lia. }
      rewrite Hk in Hlen.
      change (Z.of_nat (List.length (torrent_db st1))) with n in Hlen.
      rewrite count_and_check_recount.
      * split; reflexivity.
      * rewrite Hc. change (num_torrents st1) with (n + 1). lia.
      * lia.
Qed.



End Capacity.

(* ------------------------------------------------------------------ *)
(** ** Properties: creation dates in the future *)
(* ------------------------------------------------------------------ *)










Section FutureDates.

Context `{P : Platform}.



End FutureDates.

(* ------------------------------------------------------------------ *)
(** ** Properties: saving a torrent *)
(* ------------------------------------------------------------------ *)

Lemma getTorrent_upsert db h t :
  infohash t = h -> getTorrent (db_remove db h ++ [t]) h = Some t.
Proof.
  intros Ht. unfold getTorrent, db_remove.
  induction db as [|u db IH]; simpl.
  - now rewrite Ht, String.eqb_refl.
  - destruct (String.eqb (infohash u) h) eqn:E; simpl; [exact IH|].
    now rewrite E.
Qed.

Section Saving.

Context `{P : Platform}.

(** The outcome of [write_torrent] never reaches its caller, and the
    index is out of its reach. *)
Lemma write_torrent_run metadata dir name st :
  fst (write_torrent metadata dir name st) = Ok tt
  /\ torrent_db (snd (write_torrent metadata dir name st)) = torrent_db st
  /\ torrent_db_synced (snd (write_torrent metadata dir name st))
     = torrent_db_synced st
  /\ num_torrents (snd (write_torrent metadata dir name st)) = num_torrents st.
Proof.
  unfold write_torrent, try_except, bind, get, on_disk, ret, raise.
  rewrite if_run.
  destruct (negb (exists_path (disk st) dir)).
  - destruct (mkdir (disk st) dir) as [fs|e]; [|repeat split].
    cbn [disk set_disk].
    destruct (open_wb fs (path_join dir name)) as [fs'|e]; [|repeat split].
    destruct metadata as [z|data|l|d]; try solve [repeat split].
    destruct (write_file _ _ data); repeat split.
  - destruct (open_wb (disk st) (path_join dir name)) as [fs'|e]; [|repeat split].
    destruct metadata as [z|data|l|d]; try solve [repeat split].
    destruct (write_file _ _ data); repeat split.
Qed.


(** Choosing the file name changes nothing. *)
Lemma get_filename_state metadata h st :
  snd (get_filename metadata h st) = st.
Proof.
  unfold get_filename, bind, lift, get, ret.
  destruct (py_bdecode metadata); [|reflexivity].
  rewrite if_run.
  destruct (exists_path _ _); reflexivity.
Qed.



End Saving.





(** C6, the input on which the code departs from the rule: a handler
    registered on an index of 110 records with a budget of 100.  Its first
    capacity check counts 111, deletes 21 records and leaves 89, where the
    rule [max(1, 110 - 100 + 100/10)] gives 20 and 90.  The same index
    checked through an initialised counter loses 20 and keeps 90. *)
Theorem first_check_evicts_one_too_many :
  List.length (torrent_db (Scenario.restarted 100 110)) = 110%nat
  /\ Z.max 1 (110 - 100 + 100 / 10) = 20
  /\ fst (check_overflow (P := Posix.platform 100) true
            (Scenario.restarted 100 110)) = Ok tt
  /\ List.length (torrent_db (snd (check_overflow (P := Posix.platform 100) true
       (Scenario.restarted 100 110)))) = 89%nat
  /\ torrent_db (snd (check_overflow (P := Posix.platform 100) true
       (Scenario.restarted 100 110))) = Scenario.records 89
  /\ List.length (torrent_db (snd (check_overflow (P := Posix.platform 100) true
       (Scenario.running 100 110 100)))) = 90%nat.
Proof. vm_compute. repeat split. Qed.



(** C9, counterexample: one record in the index and a budget of two.  The
    first check ends with the counter at 1, not at 1 + 2. *)
Lemma first_check_recounts :
  List.length (torrent_db (Scenario.restarted 2 1)) = 1%nat
  /\ num_torrents (Scenario.restarted 2 1) = -1
  /\ check_overflow (P := Posix.platform 2) true (Scenario.restarted 2 1)
     = (Ok tt, recount (Scenario.restarted 2 1))
  /\ num_torrents (snd (check_overflow (P := Posix.platform 2) true
       (Scenario.restarted 2 1))) = 1.
Proof. vm_compute. repeat split. Qed.

Lemma first_check_counter_witness :
  num_torrents (snd (check_overflow (P := Posix.platform 100) true
    (Scenario.restarted 100 3))) = 5
  /\ num_torrents (snd (check_overflow (P := Posix.platform 2) true
       (Scenario.restarted 2 3))) = 1.
Proof.
  split.
  - destruct (first_check_counter (P := Posix.platform 100)
                (Scenario.restarted 100 3)) as (Hlow & _).
    + vm_compute; reflexivity.
    + rewrite Hlow; [reflexivity|vm_compute; discriminate].
  - destruct (first_check_counter (P := Posix.platform 2)
                (Scenario.restarted 2 3)) as (_ & Hhigh).
    + vm_compute; reflexivity.
    + destruct Hhigh as (_ & Hc).
      * vm_compute; reflexivity.
      * vm_compute; discriminate.
      * apply distinctb_sound. vm_compute; reflexivity.
      * apply numeric_dateb_sound. vm_compute; reflexivity.
      * rewrite Hc. vm_compute. reflexivity.
Defined.


(* ------------------------------------------------------------------ *)
(** ** Further properties: the dispatcher and the serving side *)
(* ------------------------------------------------------------------ *)

Section Serving.

Context `{P : Platform}.

Lemma send_metadata_returns conn message st :
  exists b, fst (send_metadata conn message st) = Ok b.
Proof.
  unfold send_metadata.
  destruct (bdecode (tail_str message)) as [v|e]; [|now exists false].
  destruct (negb (isValidInfohash v)); [now exists false|].
  destruct v as [z|h|l|d]; try (now exists false).
  unfold bind, get.
  destruct (negb (truthy (find_torrent st h))); [now exists false|].
  destruct (find_torrent st h) as [p|]; [|now exists true].
  destruct (read_torrent st p) as [[|c data]|]; try (now exists true).
Qed.

Lemma got_metadata_returns conn message st :
  exists b, fst (got_metadata conn message st) = Ok b.
Proof.
  unfold got_metadata.
  destruct (bdecode (tail_str message)) as [v|e]; [|now exists false].
  destruct v as [z|s|l|d]; try (now exists false).
  unfold try_except.
  match goal with |- context [match ?m st with _ => _ end] =>
    destruct (m st) as [[b|e] st'] end.
  - now exists b.
  - now exists false.
Qed.

(** X2.  No exception escapes [handleMessage] on a message that has a
    type byte: it answers with a boolean whatever the payload, and a type
    byte that is neither GET_METADATA nor METADATA is answered [False]
    with nothing done.  The empty message is the exception: reading its
    type byte raises [IndexError], which the dispatcher does not catch. *)
Theorem handleMessage_exceptions (permid message : string) (st : handler) :
  (message = "" -> handleMessage permid message st = (Raise IndexError, st))
  /\ (forall t payload,
        message = String t payload ->
        exists b, fst (handleMessage permid message st) = Ok b)
  /\ (forall t payload,
        message = String t payload ->
        t <> GET_METADATA -> t <> METADATA ->
        handleMessage permid message st = (Ok false, st)).
Proof.
  split; [now intros ->|]. split.
  - intros t payload ->. unfold handleMessage.
    destruct (Ascii.eqb t GET_METADATA); [apply send_metadata_returns|].
    destruct (Ascii.eqb t METADATA); [apply got_metadata_returns|].
    now exists false.
  - intros t payload -> Hg Hm. unfold handleMessage.
    destruct (Ascii.eqb_spec t GET_METADATA); [contradiction|].
    destruct (Ascii.eqb_spec t METADATA); [contradiction|reflexivity].
Qed.

Lemma truthy_nonempty p : p <> "" -> truthy (Some p) = true.
Proof. destruct p; [contradiction|reflexivity]. Qed.

(** What [send_metadata] does once the identifier is decoded, valid and
    found. *)
Lemma send_metadata_found conn message h p st :
  bdecode (tail_str message) = Ok (BStr h) ->
  len h = 20 ->
  find_torrent st h = Some p ->
  p <> "" ->
  send_metadata conn message st
  = match read_torrent st p with
    | Some (String c r) => (Ok true, sent st conn (response_message h (String c r)))
    | _ => (Ok true, st)
    end.
Proof.
  intros Hdec Hlen Hfind Hp. unfold send_metadata.
  rewrite Hdec, (isValidInfohash_BStr h Hlen). cbn [negb].
  unfold bind, get. rewrite Hfind, (truthy_nonempty p Hp). cbn [negb].
  destruct (read_torrent st p) as [[|c r]|]; reflexivity.
Qed.

(** X3.  A GET_METADATA message for a valid identifier whose torrent file
    is found and read (non-empty, within the size bound) is answered with
    exactly one task for the transport, addressed to the requesting peer:
    the METADATA type byte followed by the bencoded dictionary of the
    identifier and the bytes of the file.  Nothing else changes, and the
    result is [True]. *)
Theorem send_metadata_serves (conn message h p data : string) (st : handler) :
  bdecode (tail_str message) = Ok (BStr h) ->
  len h = 20 ->
  find_torrent st h = Some p ->
  p <> "" ->
  read_torrent st p = Some data ->
  data <> "" ->
  send_metadata conn message st
  = (Ok true, sent st conn (response_message h data))
  /\ secure_overlay (snd (send_metadata conn message st))
     = (secure_overlay st
        ++ [(conn, String METADATA
                     (bencode (BDict [("torrent_hash", BStr h);
                                      ("metadata", BStr data)])))])%list
  /\ torrent_db (snd (send_metadata conn message st)) = torrent_db st
  /\ disk (snd (send_metadata conn message st)) = disk st.
Proof.
  intros Hdec Hlen Hfind Hp Hread Hdata.
  rewrite (send_metadata_found conn message h p st Hdec Hlen Hfind Hp), Hread.
  destruct data as [|c r]; [contradiction|]. repeat split.
Qed.

(** X4.  When the identifier is found but its file gives nothing to send
    (it cannot be opened, exceeds the size bound, or is empty),
    [send_metadata] sends nothing and changes nothing, yet returns
    [True]: the request counts as handled. *)
Theorem send_metadata_nothing_to_send (conn message h p : string) (st : handler) :
  bdecode (tail_str message) = Ok (BStr h) ->
  len h = 20 ->
  find_torrent st h = Some p ->
  p <> "" ->
  read_torrent st p = None \/ read_torrent st p = Some "" ->
  send_metadata conn message st = (Ok true, st).
Proof.
  intros Hdec Hlen Hfind Hp Hread.
  rewrite (send_metadata_found conn message h p st Hdec Hlen Hfind Hp).
  destruct Hread as [-> | ->]; reflexivity.
Qed.

(** X5.  A request is what the serving side expects.  For an invalid
    identifier [send_metadata_request] sends nothing and returns [False].
    For a valid one it hands the transport one GET_METADATA message and
    returns [True]; when the codec decodes the encoded identifier back,
    the peer that holds the torrent answers that very message, through
    its dispatcher, with the METADATA message of the identifier and the
    bytes of its file, addressed to the requester. *)
Theorem request_is_served
    (requester holder h p data : string) (torrent_hash : bvalue)
    (stA stB : handler) :
  (isValidInfohash torrent_hash = false ->
   send_metadata_request holder torrent_hash stA = (Ok false, stA))
  /\ (len h = 20 ->
      send_metadata_request holder (BStr h) stA
      = (Ok true, sent stA holder (request_message h)))
  /\ (len h = 20 ->
      bdecode (bencode (BStr h)) = Ok (BStr h) ->
      find_torrent stB h = Some p ->
      p <> "" ->
      read_torrent stB p = Some data ->
      data <> "" ->
      handleMessage requester (request_message h) stB
      = (Ok true, sent stB requester (response_message h data))).
Proof.
  split; [|split].
  - intros Hbad. unfold send_metadata_request. now rewrite Hbad.
  - intros Hlen. unfold send_metadata_request.
    now rewrite (isValidInfohash_BStr h Hlen).
  - intros Hlen Hcodec Hfind Hp Hread Hdata.
    unfold request_message. rewrite handleMessage_GET_METADATA.
    rewrite (send_metadata_found requester
               (String GET_METADATA (bencode (BStr h))) h p stB
               Hcodec Hlen Hfind Hp), Hread.
    destruct data; [contradiction|reflexivity].
Qed.

End Serving.

Lemma send_metadata_serves_witness :
  send_metadata (P := Posix.platform 100) Exchange.peer2 Exchange.request
    Exchange.once_saved
  = (Ok true,
     sent Exchange.once_saved Exchange.peer2
       (Scenario.metadata_msg Scenario.good_hash Scenario.metadata)).
Proof.
  destruct (send_metadata_serves (P := Posix.platform 100) Exchange.peer2
              Exchange.request Scenario.good_hash Exchange.saved_path
              Scenario.metadata Exchange.once_saved) as (Hrun & _).
  - vm_compute; reflexivity.
  - vm_compute; reflexivity.
  - vm_compute; reflexivity.
  - discriminate.
  - vm_compute; reflexivity.
  - discriminate.
  - etransitivity; [exact Hrun|]. vm_compute. reflexivity.
Defined.

Lemma send_metadata_nothing_to_send_witness :
  send_metadata (P := Posix.platform 100) Exchange.peer2
    Exchange.request_dated Exchange.unreadable
  = (Ok true, Exchange.unreadable).
Proof.
  apply (send_metadata_nothing_to_send (P := Posix.platform 100)
           Exchange.peer2 Exchange.request_dated "d0000000000000000000"
           "/cfg/torrent2/d.torrent" Exchange.unreadable).
  - vm_compute; reflexivity.
  - vm_compute; reflexivity.
  - vm_compute; reflexivity.
  - discriminate.
  - left. vm_compute. reflexivity.
Defined.

(* ------------------------------------------------------------------ *)
(** ** Further properties: the storing side *)
(* ------------------------------------------------------------------ *)

Lemma assoc_remove_key_other {A} (p q : string) (d : list (string * A)) :
  q <> p -> assoc q (remove_key p d) = assoc q d.
Proof.
  intros Hne. induction d as [|[k v] d IH]; simpl; [reflexivity|].
  destruct (String.eqb_spec p k) as [->|Hpk].
  - rewrite IH. destruct (String.eqb_spec q k); [contradiction|reflexivity].
  - simpl. now rewrite IH.
Qed.

Lemma put_file_same fs p data :
  assoc p (files (put_file fs p data)) = Some (mk_file data true).
Proof. unfold put_file. cbn [files assoc]. now rewrite String.eqb_refl. Qed.

Lemma put_file_other fs p q data :
  q <> p -> assoc q (files (put_file fs p data)) = assoc q (files fs).
Proof.
  intros Hne. unfold put_file. cbn [files assoc].
  destruct (String.eqb_spec q p); [contradiction|].
  now apply assoc_remove_key_other.
Qed.

Lemma remove_key_twice {A} (p : string) (d : list (string * A)) :
  remove_key p (remove_key p d) = remove_key p d.
Proof.
  induction d as [|[k v] d IH]; simpl; [reflexivity|].
  destruct (String.eqb p k) eqn:E; [exact IH|].
  simpl. rewrite E. now f_equal.
Qed.

Lemma put_file_twice fs p a b :
  put_file (put_file fs p a) p b = put_file fs p b.
Proof.
  unfold put_file. cbn [files dirs fault remove_key].
  rewrite String.eqb_refl, remove_key_twice. reflexivity.
Qed.

Lemma fault_put_file fs p data : fault (put_file fs p data) = fault fs.
Proof. reflexivity. Qed.

Lemma with_dir_files fs dir : files (with_dir fs dir) = files fs.
Proof. unfold with_dir. now destruct (exists_path fs dir). Qed.

Lemma with_dir_fault fs dir : fault (with_dir fs dir) = fault fs.
Proof. unfold with_dir. now destruct (exists_path fs dir). Qed.

Lemma isfile_put_file fs p data q :
  isfile fs q = true -> isfile (put_file fs p data) q = true.
Proof.
  unfold isfile. destruct (String.eqb_spec q p) as [->|Hne].
  - now rewrite put_file_same.
  - now rewrite put_file_other.
Qed.

Lemma exists_path_put_file fs p data q :
  exists_path fs q = true -> exists_path (put_file fs p data) q = true.
Proof.
  unfold exists_path. rewrite !orb_true_iff. intros [H|H].
  - left. now apply isfile_put_file.
  - right. exact H.
Qed.

Lemma exists_path_with_dir fs dir : exists_path (with_dir fs dir) dir = true.
Proof.
  unfold with_dir. destruct (exists_path fs dir) eqn:Hex; [exact Hex|].
  unfold exists_path. cbn [dirs mem existsb]. rewrite String.eqb_refl.
  now rewrite orb_true_r.
Qed.

(** The loop over [info['files']]: every entry counts as a file, and
    the integer lengths add up. *)
Lemma sum_files_plain l : forall length nf,
  Forall plain_file l ->
  sum_files l length nf
  = Ok (length + sum_lengths l, nf + Z.of_nat (List.length l)).
Proof.
  induction l as [|li l IH]; intros length nf Hall.
  - cbn. f_equal. f_equal; lia.
  - inversion Hall as [|? ? (d & -> & Hlen) Hall']; subst.
    cbn [sum_files py_has_key py_getitem sum_lengths fold_right file_length
         List.length].
    destruct Hlen as [Hnone|[n Hn]].
    + rewrite Hnone. rewrite IH by exact Hall'.
      f_equal. f_equal; fold (sum_lengths l); lia.
    + rewrite Hn. rewrite IH by exact Hall'.
      f_equal. f_equal; fold (sum_lengths l); lia.
Qed.

(** The loop stops with an exception at the first entry that is not a
    dictionary or whose ['length'] is not an integer. *)
Lemma sum_files_broken l1 x l2 : forall length nf,
  Forall plain_file l1 ->
  ~ plain_file x ->
  sum_files (l1 ++ x :: l2) length nf = Raise AttributeError
  \/ sum_files (l1 ++ x :: l2) length nf = Raise TypeError.
Proof.
  induction l1 as [|li l1 IH]; intros length nf Hall Hx.
  - cbn [app sum_files].
    destruct x as [z|s|l|d]; cbn [py_has_key]; try (now left).
    destruct (assoc "length" d) as [v|] eqn:Hv.
    + cbn [py_getitem]. rewrite Hv.
      destruct v as [n|s|l|d']; try (now right).
      exfalso. apply Hx. exists d. split; [reflexivity|]. right. now exists n.
    + exfalso. apply Hx. exists d. split; [reflexivity|]. now left.
  - inversion Hall as [|? ? (d & -> & Hlen) Hall']; subst.
    cbn [app sum_files py_has_key py_getitem].
    destruct Hlen as [Hnone|[n Hn]].
    + rewrite Hnone. now apply IH.
    + rewrite Hn. now apply IH.
Qed.

Section Storing.

Context `{P : Platform}.

(** On a disk without fault [write_torrent] makes the directory if it is
    not there and puts the bytes at [dir]/[name]. *)
Lemma write_torrent_ok data dir name st :
  fault (disk st) = NoFault ->
  write_torrent (BStr data) dir name st
  = (Ok tt, set_disk st (put_file (with_dir (disk st) dir)
                           (path_join dir name) data)).
Proof.
  intros Hf.
  unfold write_torrent, try_except, bind, get, on_disk, ret.
  rewrite if_run. unfold with_dir, mkdir, open_wb, write_file.
  destruct (exists_path (disk st) dir) eqn:Hex; cbn [negb];
    rewrite ?Hf, ?Hex; cbn [disk set_disk fault];
    rewrite ?fault_put_file; cbn [fault]; rewrite ?Hf;
    cbn [disk set_disk]; rewrite put_file_twice; reflexivity.
Qed.

(** [addTorrentToDB] within the budget: it raises before it has touched
    anything, or it stores a fresh record for the identifier. *)
Lemma addTorrentToDB_room src h metadata st :
  0 <= num_torrents st ->
  num_torrents st + 1 <= max_num_torrents ->
  (exists e, addTorrentToDB src h metadata st = (Raise e, st))
  \/ (exists t metainfo namekey metainfo',
        addTorrentToDB src h metadata st = (Ok tt, stored st h t)
        /\ infohash t = h
        /\ torrent_dir t = Some (fst (path_split src))
        /\ torrent_name t = Some (snd (path_split src))
        /\ status t = Some "unknown"
        /\ retry_number t = Some 0
        /\ relevance t = None
        /\ py_bdecode metadata = Ok metainfo
        /\ name2unicode metainfo = Ok (namekey, metainfo')
        /\ py_get metainfo' "creation date" (BInt 0) = Ok (creation_date t)).
Proof.
  intros Hpos Hroom.
  remember (addTorrentToDB src h metadata st) as r eqn:Hr.
  unfold addTorrentToDB in Hr.
  unfold bind at 1 in Hr. unfold lift at 1 in Hr.
  destruct (py_bdecode metadata) as [metainfo|e] eqn:Hdec;
    [|left; now exists e].
  unfold bind at 1 in Hr. unfold lift at 1 in Hr.
  destruct (name2unicode metainfo) as [[namekey metainfo']|e] eqn:Hname;
    [|left; now exists e].
  unfold bind at 1 in Hr. unfold lift at 1 in Hr.
  destruct (py_getitem metainfo' "info") as [info|e]; [|left; now exists e].
  destruct (path_split src) as [dir name] eqn:Hsplit.
  unfold bind at 1 in Hr. unfold lift at 1 in Hr.
  destruct (py_get info namekey (BStr "")) as [ti_name|e];
    [|left; now exists e].
  unfold bind at 1 in Hr. unfold lift at 1 in Hr.
  destruct (py_has_key info "length") as [has_length|e];
    [|left; now exists e].
  unfold bind at 1 in Hr.
  match type of Hr with
  | _ = match ?m st with _ => _ end =>
      assert (Hm : snd (m st) = st);
      [|destruct (m st) as [[[length nf]|e] st0]; cbn [snd] in Hm; subst st0;
        [|left; now exists e]]
  end.
  { rewrite if_run. destruct has_length.
    - unfold bind, lift, ret. now destruct (py_get info "length" (BInt 0)).
    - unfold bind, lift, ret.
      destruct (py_has_key info "files") as [[|]|]; try reflexivity.
      destruct (py_getitem info "files"); [|reflexivity].
      now destruct (count_files _) as [[? ?]|]. }
  unfold bind at 1 in Hr. unfold lift at 1 in Hr.
  destruct (py_get metainfo' "announce" (BStr "")) as [announce|e];
    [|left; now exists e].
  unfold bind at 1 in Hr. unfold lift at 1 in Hr.
  destruct (py_get metainfo' "announce-list" (BStr "")) as [announce_list|e];
    [|left; now exists e].
  unfold bind at 1 in Hr. unfold lift at 1 in Hr.
  destruct (py_get metainfo' "creation date" (BInt 0)) as [date|e] eqn:Hdate;
    [|left; now exists e].
  right.
  unfold bind at 1 in Hr. unfold get at 1 in Hr.
  unfold bind at 1 in Hr. unfold addTorrent, modify in Hr.
  unfold bind at 1 in Hr.
  rewrite check_overflow_eq, check_overflow_counted in Hr by exact Hpos.
  rewrite count_and_check_below in Hr by exact Hroom.
  unfold sync, modify in Hr. subst r.
  eexists. exists metainfo, namekey, metainfo'.
  split; [reflexivity|]. cbn. repeat split; try reflexivity; assumption.
Qed.

Lemma py_get_dict d k dflt : py_get (BDict d) k dflt = Ok (get_or d k dflt).
Proof. unfold py_get, get_or. now destruct (assoc k d). Qed.

(** [addTorrentToDB] on a metainfo dictionary with a dictionary under
    ['info']: it raises in the loop over the files, before it has touched
    anything, or it hands the record to the index and runs the capacity
    check and the flush. *)
Lemma addTorrentToDB_dict src h metadata metainfo namekey m i st :
  py_bdecode metadata = Ok metainfo ->
  name2unicode metainfo = Ok (namekey, BDict m) ->
  assoc "info" m = Some (BDict i) ->
  addTorrentToDB src h metadata st
  = match content_size i with
    | Ok (length, nf) =>
        (check_overflow true ;; sync)
          (set_torrent_db st
             (upsert (torrent_db st) h
                (fresh_record src h namekey m i length nf (clock st))))
    | Raise e => (Raise e, st)
    end.
Proof.
  intros Hdec Hname Hinfo. unfold addTorrentToDB.
  unfold bind at 1. unfold lift at 1. rewrite Hdec.
  unfold bind at 1. unfold lift at 1. rewrite Hname.
  unfold bind at 1. unfold lift at 1. cbn [py_getitem]. rewrite Hinfo.
  unfold fresh_record, upsert.
  destruct (path_split src) as [dir name]. cbn [fst snd].
  unfold bind at 1. unfold lift at 1. rewrite py_get_dict.
  unfold bind at 1. unfold lift at 1. cbn [py_has_key].
  unfold content_size.
  destruct (assoc "length" i) as [v|] eqn:Hlen.
  - unfold bind at 1. unfold bind at 1. unfold lift at 1.
    rewrite py_get_dict. unfold get_or at 1. rewrite Hlen. unfold ret at 1.
    rewrite !py_get_dict.
    reflexivity.
  - unfold bind at 1. unfold bind at 1. unfold lift at 1. cbn [py_has_key].
    destruct (assoc "files" i) as [files|] eqn:Hfiles.
    + unfold bind at 1. unfold lift at 1. cbn [py_getitem].
      rewrite Hfiles.
      unfold bind at 1. unfold lift at 1.
      destruct (count_files files) as [[length nf]|e]; [|reflexivity].
      unfold ret at 1. rewrite !py_get_dict. reflexivity.
    + unfold ret at 1. rewrite !py_get_dict. reflexivity.
Qed.

(** X11.  The record stored for accepted metadata.  Within the budget,
    [addTorrentToDB] on a metainfo dictionary with a dictionary under
    ['info'] stores for the identifier the record [fresh_record]: located
    by the two parts of [src], status ['unknown'], retry, seeder, leecher
    and ignore numbers 0, no relevance, name, announce, announce-list and
    creation date copied as they stand (defaults [''], [''], [''], [0]).
    Its length and number of files are ['length'] as it stands and 1 when
    ['info'] has that key, whether or not it has ['files'] too; else the
    sum of the integer lengths of the entries of ['files'] and their
    number; else 0 and 0.  An entry of ['files'] that is not a dictionary
    or whose ['length'] is not an integer makes it raise, with the handler
    left as it was. *)
Theorem addTorrentToDB_record
    (src h : string) (metadata metainfo : bvalue) (namekey : string)
    (m i : list (string * bvalue)) (st : handler) :
  py_bdecode metadata = Ok metainfo ->
  name2unicode metainfo = Ok (namekey, BDict m) ->
  assoc "info" m = Some (BDict i) ->
  0 <= num_torrents st ->
  num_torrents st + 1 <= max_num_torrents ->
  addTorrentToDB src h metadata st
  = match content_size i with
    | Ok (length, nf) =>
        (Ok tt,
         stored st h (fresh_record src h namekey m i length nf (clock st)))
    | Raise e => (Raise e, st)
    end
  /\ (forall v, assoc "length" i = Some v -> content_size i = Ok (v, 1))
  /\ (forall l,
        assoc "length" i = None ->
        assoc "files" i = Some (BList l) ->
        Forall plain_file l ->
        content_size i = Ok (BInt (sum_lengths l), Z.of_nat (List.length l)))
  /\ (forall l1 x l2,
        assoc "length" i = None ->
        assoc "files" i = Some (BList (l1 ++ x :: l2)) ->
        Forall plain_file l1 ->
        ~ plain_file x ->
        content_size i = Raise AttributeError
        \/ content_size i = Raise TypeError)
  /\ (assoc "length" i = None ->
      assoc "files" i = None ->
      content_size i = Ok (BInt 0, 0)).
Proof.
  intros Hdec Hname Hinfo Hpos Hroom.
  split; [|split; [|split; [|split]]].
  - rewrite (addTorrentToDB_dict src h metadata metainfo namekey m i st
               Hdec Hname Hinfo).
    destruct (content_size i) as [[length nf]|e]; [|reflexivity].
    unfold bind at 1.
    rewrite check_overflow_eq, check_overflow_counted by exact Hpos.
    rewrite count_and_check_below by exact Hroom.
    reflexivity.
  - intros v Hv. unfold content_size. now rewrite Hv.
  - intros l Hlen Hfiles Hall. unfold content_size.
    rewrite Hlen, Hfiles. cbn [count_files].
    rewrite sum_files_plain by exact Hall. reflexivity.
  - intros l1 x l2 Hlen Hfiles Hall Hx. unfold content_size.
    rewrite Hlen, Hfiles. cbn [count_files].
    destruct (sum_files_broken l1 x l2 0 0 Hall Hx) as [-> | ->]; auto.
  - intros Hlen Hfiles. unfold content_size. now rewrite Hlen, Hfiles.
Qed.

(** [save_torrent], step by step. *)
Lemma save_torrent_unfold h metadata st :
  save_torrent h metadata st
  = match fst (get_filename metadata h st) with
    | Raise e => (Raise e, st)
    | Ok file_name =>
        match addTorrentToDB (path_join (config_dir st) file_name) h metadata st with
        | (Ok _, st1) => write_torrent metadata (config_dir st) file_name st1
        | (Raise e, st1) => (Raise e, st1)
        end
    end.
Proof.
  pose proof (get_filename_state metadata h st) as Hst.
  unfold save_torrent. unfold bind at 1.
  destruct (get_filename metadata h st) as [[file_name|e] st0];
    cbn [fst snd] in *; subst st0; [|reflexivity].
  unfold bind at 1. unfold get at 1. unfold bind at 1.
  destruct (addTorrentToDB _ h metadata st) as [[[]|e] st1]; reflexivity.
Qed.

(** The name [get_filename] chooses. *)
Lemma get_filename_name metadata h st metainfo :
  py_bdecode metadata = Ok metainfo ->
  fst (get_filename metadata h st)
  = Ok (if exists_path (disk st) (path_join (config_dir st) (derived_name h))
        then stamped_name (clock st) h
        else derived_name h).
Proof.
  intros Hdec. unfold get_filename, bind, lift, get, ret. rewrite Hdec.
  cbv beta iota. rewrite if_run. unfold stamped_name, derived_name.
  now destruct (exists_path _ _).
Qed.

(** [write_torrent] leaves every other path of the disk alone. *)
Lemma write_torrent_other_paths metadata dir name st q :
  q <> path_join dir name ->
  assoc q (files (disk (snd (write_torrent metadata dir name st))))
  = assoc q (files (disk st)).
Proof.
  intros Hq.
  unfold write_torrent, try_except, bind, get, on_disk, ret, raise.
  rewrite if_run. unfold mkdir, open_wb, write_file.
  destruct (exists_path (disk st) dir) eqn:Hex; cbn [negb];
    destruct (fault (disk st)) eqn:Hf; rewrite ?Hex;
    cbn [disk set_disk fault]; rewrite ?Hf; try reflexivity;
    destruct metadata as [z|data|l|d]; cbn [disk set_disk fault snd];
    rewrite ?fault_put_file; cbn [fault]; rewrite ?Hf;
    cbn [snd disk set_disk];
    rewrite ?put_file_other by exact Hq;
    reflexivity.
Qed.

(** X6.  [write_torrent] never raises to its caller and touches nothing
    but the disk, and on the disk nothing but the directory and the path
    [dir]/[name].  On a disk without fault the file at that path then
    reads back as the bytes written and the directory exists. *)
Theorem write_torrent_effect
    (metadata : bvalue) (dir name : string) (st : handler) :
  fst (write_torrent metadata dir name st) = Ok tt
  /\ torrent_db (snd (write_torrent metadata dir name st)) = torrent_db st
  /\ num_torrents (snd (write_torrent metadata dir name st)) = num_torrents st
  /\ (forall q,
        q <> path_join dir name ->
        assoc q (files (disk (snd (write_torrent metadata dir name st))))
        = assoc q (files (disk st)))
  /\ (forall data,
        metadata = BStr data ->
        fault (disk st) = NoFault ->
        read_file (disk (snd (write_torrent metadata dir name st)))
          (path_join dir name) = Ok data
        /\ exists_path (disk (snd (write_torrent metadata dir name st))) dir
           = true).
Proof.
  destruct (write_torrent_run metadata dir name st) as (Hr & Hdb & _ & Hn).
  split; [exact Hr|]. split; [exact Hdb|]. split; [exact Hn|].
  split; [intros q Hq; now apply write_torrent_other_paths|].
  intros data -> Hf. rewrite (write_torrent_ok data dir name st Hf).
  cbn [snd disk set_disk]. split.
  - unfold read_file. now rewrite put_file_same.
  - apply exists_path_put_file, exists_path_with_dir.
Qed.

(** [find_torrent] on an index that holds a located record for the
    identifier, with the file in place. *)
Lemma find_torrent_stored st h t d n :
  getTorrent (torrent_db st) h = Some t ->
  torrent_dir t = Some d ->
  torrent_name t = Some n ->
  isfile (disk st) (path_join d n) = true ->
  find_torrent st h = Some (path_join d n).
Proof.
  intros Hg Hd Hn Hf. unfold find_torrent. now rewrite Hg, Hd, Hn, Hf.
Qed.

Lemma read_torrent_of_file st p data :
  read_file (disk st) p = Ok data ->
  read_torrent st p
  = if len data >? Max_Torrent_Size then None else Some data.
Proof. intros H. unfold read_torrent. now rewrite H. Qed.

(** [save_torrent] within the budget on a disk without fault: it raises
    before it has touched anything, or it stores the record and the
    file. *)
Lemma save_torrent_room h metadata st :
  0 <= num_torrents st ->
  num_torrents st + 1 <= max_num_torrents ->
  fault (disk st) = NoFault ->
  (exists e, save_torrent h metadata st = (Raise e, st))
  \/ (exists data file_name t,
        metadata = BStr data
        /\ fst (get_filename metadata h st) = Ok file_name
        /\ save_torrent h metadata st
           = (Ok tt,
              set_disk (stored st h t)
                (put_file (with_dir (disk st) (config_dir st))
                   (path_join (config_dir st) file_name) data))
        /\ infohash t = h
        /\ torrent_dir t
           = Some (fst (path_split (path_join (config_dir st) file_name)))
        /\ torrent_name t
           = Some (snd (path_split (path_join (config_dir st) file_name)))).
Proof.
  intros Hpos Hroom Hf. rewrite save_torrent_unfold.
  pose proof (get_filename_state metadata h st) as Hst.
  destruct (get_filename metadata h st) as [[file_name|e] st0] eqn:Hget;
    cbn [fst snd] in *; [|left; now exists e].
  destruct metadata as [z|data|l|d];
    try (unfold get_filename, bind, lift in Hget; cbn in Hget; discriminate).
  destruct (addTorrentToDB_room (path_join (config_dir st) file_name) h
              (BStr data) st Hpos Hroom)
    as [[e He]|(t & mi & nk & mi' & Hadd & Hh & Hd & Hn & _)].
  - left. exists e. now rewrite He.
  - right. exists data, file_name, t. rewrite Hadd.
    rewrite write_torrent_ok by exact Hf.
    repeat split; assumption.
Qed.

(** The handler [save_torrent] leaves behind holds the record and the
    file where [find_torrent] and [read_file] look for them. *)
Lemma saved_state_serves st h t data file_name :
  infohash t = h ->
  torrent_dir t
  = Some (fst (path_split (path_join (config_dir st) file_name))) ->
  torrent_name t
  = Some (snd (path_split (path_join (config_dir st) file_name))) ->
  path_join (fst (path_split (path_join (config_dir st) file_name)))
            (snd (path_split (path_join (config_dir st) file_name)))
  = path_join (config_dir st) file_name ->
  find_torrent
    (set_disk (stored st h t)
       (put_file (with_dir (disk st) (config_dir st))
          (path_join (config_dir st) file_name) data)) h
  = Some (path_join (config_dir st) file_name)
  /\ read_file
       (disk (set_disk (stored st h t)
          (put_file (with_dir (disk st) (config_dir st))
             (path_join (config_dir st) file_name) data)))
       (path_join (config_dir st) file_name) = Ok data.
Proof.
  intros Hh Hdir Hn Hjoin. split.
  - rewrite <- Hjoin at 2.
    apply (find_torrent_stored _ h t); try assumption.
    + cbn [torrent_db set_disk stored]. now apply getTorrent_upsert.
    + rewrite Hjoin. cbn [disk set_disk]. unfold isfile.
      now rewrite put_file_same.
  - cbn [disk set_disk]. unfold read_file. now rewrite put_file_same.
Qed.

(** X7.  Save, then find and read.  Within the budget and on a disk
    without fault, a save that returns has put the record and the file
    where [find_torrent] and [read_torrent] look for them: the index and
    its flushed copy agree, [find_torrent] gives the save path, the file
    there holds the bytes saved, and [read_torrent] gives them back
    unless they are longer than [Max_Torrent_Size]; [save_torrent] has no
    size check of its own, so a longer payload is stored but never read
    back. *)
Theorem save_then_find_and_read
    (h data file_name : string) (st : handler) :
  0 <= num_torrents st ->
  num_torrents st + 1 <= max_num_torrents ->
  fault (disk st) = NoFault ->
  fst (get_filename (BStr data) h st) = Ok file_name ->
  path_join (fst (path_split (path_join (config_dir st) file_name)))
            (snd (path_split (path_join (config_dir st) file_name)))
  = path_join (config_dir st) file_name ->
  fst (save_torrent h (BStr data) st) = Ok tt ->
  find_torrent (snd (save_torrent h (BStr data) st)) h
  = Some (path_join (config_dir st) file_name)
  /\ read_file (disk (snd (save_torrent h (BStr data) st)))
       (path_join (config_dir st) file_name) = Ok data
  /\ read_torrent (snd (save_torrent h (BStr data) st))
       (path_join (config_dir st) file_name)
     = (if len data >? Max_Torrent_Size then None else Some data)
  /\ torrent_db_synced (snd (save_torrent h (BStr data) st))
     = torrent_db (snd (save_torrent h (BStr data) st))
  /\ num_torrents (snd (save_torrent h (BStr data) st)) = num_torrents st + 1.
Proof.
  intros Hpos Hroom Hf Hname Hjoin Hok.
  destruct (save_torrent_room h (BStr data) st Hpos Hroom Hf)
    as [[e He]|(data' & fn & t & Hd & Hfn & Hsave & Hh & Hdir & Hn)].
  - rewrite He in Hok. discriminate.
  - injection Hd as <-. rewrite Hname in Hfn. injection Hfn as <-.
    rewrite Hsave. cbn [snd].
    destruct (saved_state_serves st h t data file_name Hh Hdir Hn Hjoin)
      as (Hfind & Hread).
    split; [exact Hfind|]. split; [exact Hread|].
    split; [exact (read_torrent_of_file _ _ _ Hread)|].
    split; reflexivity.
Qed.

(** X8.  Within the budget [save_torrent] is all or nothing on the
    index: when it raises (the metadata does not decode, has no ['info'],
    its name or file list is unusable) the handler is exactly as before;
    when it returns the index holds a record for the identifier, the
    flushed copy equals the index and the counter is one higher. *)
Theorem save_torrent_all_or_nothing
    (h : string) (metadata : bvalue) (st : handler) :
  0 <= num_torrents st ->
  num_torrents st + 1 <= max_num_torrents ->
  match save_torrent h metadata st with
  | (Raise _, st') => st' = st
  | (Ok _, st') =>
      (exists t, getTorrent (torrent_db st') h = Some t /\ infohash t = h)
      /\ torrent_db_synced st' = torrent_db st'
      /\ num_torrents st' = num_torrents st + 1
  end.
Proof.
  intros Hpos Hroom. rewrite save_torrent_unfold.
  pose proof (get_filename_state metadata h st) as Hst.
  destruct (get_filename metadata h st) as [[file_name|e] st0];
    cbn [fst snd] in *; [|reflexivity].
  destruct (addTorrentToDB_room (path_join (config_dir st) file_name) h
              metadata st Hpos Hroom)
    as [[e He]|(t & mi & nk & mi' & Hadd & Hh & _)]; rewrite ?He, ?Hadd;
    [reflexivity|].
  destruct (write_torrent_run metadata (config_dir st) file_name (stored st h t))
    as (Hr & Hdb & Hsync & Hn).
  destruct (write_torrent metadata (config_dir st) file_name (stored st h t))
    as [[[]|e] st'] eqn:Hw; cbn [fst snd] in *; [|discriminate].
  rewrite Hdb, Hsync, Hn. cbn [torrent_db torrent_db_synced num_torrents stored].
  split; [|split; reflexivity].
  exists t. split; [now apply getTorrent_upsert|exact Hh].
Qed.

End Storing.

Lemma addTorrentToDB_record_witness :
  option_map info
    (getTorrent
       (torrent_db (snd (addTorrentToDB (P := Posix.platform 100)
          "/cfg/torrent2/two.torrent" Scenario.good_hash
          (BStr Exchange.two_files_metadata) Exchange.settled)))
       Scenario.good_hash)
  = Some (Some (mk_torrent_info (BStr "dir") (BInt 7) 2 (BStr "url")
                  (BStr "") (Some (BInt 0)))).
Proof.
  destruct (addTorrentToDB_record (P := Posix.platform 100)
              "/cfg/torrent2/two.torrent" Scenario.good_hash
              (BStr Exchange.two_files_metadata)
              (BDict Exchange.two_files_metainfo) "name"
              Exchange.two_files_metainfo Exchange.two_files
              Exchange.settled) as (Hrun & _).
  - vm_compute; reflexivity.
  - vm_compute; reflexivity.
  - vm_compute; reflexivity.
  - vm_compute; discriminate.
  - vm_compute; discriminate.
  - rewrite Hrun. vm_compute. reflexivity.
Defined.

Lemma save_then_find_and_read_witness :
  find_torrent (P := Posix.platform 100)
    (snd (save_torrent (P := Posix.platform 100) Scenario.good_hash
            (BStr Scenario.metadata) Exchange.settled))
    Scenario.good_hash = Some Exchange.saved_path
  /\ read_torrent
       (snd (save_torrent (P := Posix.platform 100) Scenario.good_hash
               (BStr Scenario.metadata) Exchange.settled))
       Exchange.saved_path = Some Scenario.metadata.
Proof.
  destruct (save_then_find_and_read (P := Posix.platform 100)
              Scenario.good_hash Scenario.metadata Exchange.saved_name
              Exchange.settled)
    as (Hfind & _ & Hread & _).
  - vm_compute; discriminate.
  - vm_compute; discriminate.
  - vm_compute; reflexivity.
  - vm_compute; reflexivity.
  - vm_compute; reflexivity.
  - vm_compute; reflexivity.
  - split; [exact Hfind|]. etransitivity; [exact Hread|].
    vm_compute. reflexivity.
Defined.

Lemma save_torrent_all_or_nothing_witness :
  save_torrent (P := Posix.platform 100) Scenario.good_hash
    (BStr Exchange.no_info) Exchange.settled
  = (Raise KeyError, Exchange.settled).
Proof.
  pose proof (save_torrent_all_or_nothing (P := Posix.platform 100)
                Scenario.good_hash (BStr Exchange.no_info) Exchange.settled)
    as H.
  destruct (save_torrent (P := Posix.platform 100) Scenario.good_hash
              (BStr Exchange.no_info) Exchange.settled) as [[[]|e] st'] eqn:Hs.
  - vm_compute in Hs. discriminate.
  - rewrite H; [|vm_compute; discriminate|vm_compute; discriminate].
    vm_compute in Hs. injection Hs as <- _. reflexivity.
Defined.

(* ------------------------------------------------------------------ *)
(** ** Properties: what the store leaves alone *)
(* ------------------------------------------------------------------ *)

Lemma same_peers_refl st : same_peers st st.
Proof. repeat split. Qed.

Lemma same_peers_trans st1 st2 st3 :
  same_peers st1 st2 -> same_peers st2 st3 -> same_peers st1 st3.
Proof.
  unfold same_peers. intros (Ha & Hb & Hc & Hd) (Ha' & Hb' & Hc' & Hd').
  repeat split; congruence.
Qed.

Lemma keeps_ret {A} (a : A) : keeps_peers (ret a).
Proof. intros st. apply same_peers_refl. Qed.

Lemma keeps_raise {A} (e : exn) : keeps_peers (raise (A := A) e).
Proof. intros st. apply same_peers_refl. Qed.

Lemma keeps_lift {A} (r : res A) : keeps_peers (lift r).
Proof. intros st. apply same_peers_refl. Qed.

Lemma keeps_get : keeps_peers get.
Proof. intros st. apply same_peers_refl. Qed.

Lemma keeps_bind {A B} (m : M A) (k : A -> M B) :
  keeps_peers m -> (forall a, keeps_peers (k a)) -> keeps_peers (bind m k).
Proof.
  intros Hm Hk st. unfold bind. specialize (Hm st).
  destruct (m st) as [[a|e] st1]; cbn [snd] in *; [|exact Hm].
  eapply same_peers_trans; [exact Hm|apply Hk].
Qed.

Lemma keeps_try_except {A} (m : M A) (h : exn -> M A) :
  keeps_peers m -> (forall e, keeps_peers (h e)) ->
  keeps_peers (try_except m h).
Proof.
  intros Hm Hh st. unfold try_except. specialize (Hm st).
  destruct (m st) as [[a|e] st1]; cbn [snd] in *; [exact Hm|].
  eapply same_peers_trans; [exact Hm|apply Hh].
Qed.

Lemma keeps_if {A} (c : bool) (f g : M A) :
  keeps_peers f -> keeps_peers g -> keeps_peers (if c then f else g).
Proof. now destruct c. Qed.

Lemma keeps_modify (f : handler -> handler) :
  (forall st, same_peers st (f st)) -> keeps_peers (modify f).
Proof. intros Hf st. apply Hf. Qed.

Lemma keeps_on_disk (f : filesystem -> res filesystem) :
  keeps_peers (on_disk f).
Proof.
  intros st. unfold on_disk. destruct (f (disk st)); repeat split.
Qed.

Section Frame.

Context `{P : Platform}.

Lemma keeps_addTorrent h t : keeps_peers (addTorrent h t).
Proof. apply keeps_modify. intros st. repeat split. Qed.

Lemma keeps_sync : keeps_peers sync.
Proof. apply keeps_modify. intros st. repeat split. Qed.

Lemma keeps_deleteTorrent h b : keeps_peers (deleteTorrent h b).
Proof.
  apply keeps_modify. intros st.
  destruct (getTorrent (torrent_db st) h) as [t|]; [|repeat split].
  destruct (payload_path t); [|repeat split].
  destruct b; repeat split.
Qed.

Lemma keeps_delete_each l : keeps_peers (delete_each l).
Proof.
  induction l as [|t l IH]; cbn [delete_each]; [apply keeps_ret|].
  apply keeps_bind; [apply keeps_deleteTorrent|intros _; exact IH].
Qed.

Lemma keeps_limit_space : keeps_peers limit_space.
Proof.
  unfold limit_space. apply keeps_bind; [apply keeps_get|]. intros st0.
  destruct (weigh (clock st0) (torrent_list st0)) as [weighted e].
  apply keeps_bind; [apply keeps_modify; intros st; repeat split|].
  intros _. destruct e as [e|]; [apply keeps_raise|].
  apply keeps_bind; [apply keeps_lift|]. intros sorted.
  apply keeps_bind; [apply keeps_modify; intros st; repeat split|].
  intros _. apply keeps_bind; [apply keeps_get|]. intros st1.
  apply keeps_delete_each.
Qed.

Lemma keeps_check_overflow_rec frames update :
  keeps_peers (check_overflow_rec frames update).
Proof.
  revert update. induction frames as [|frames IH]; intros update;
    cbn [check_overflow_rec]; [apply keeps_raise|].
  apply keeps_bind; [apply keeps_get|]. intros st0.
  apply keeps_bind.
  - apply keeps_if; [|apply keeps_ret].
    apply keeps_bind; [apply keeps_modify; intros st; repeat split|].
    intros _.
    apply keeps_bind; [apply keeps_modify; intros st; repeat split|].
    intros _. apply IH.
  - intros _.
    apply keeps_bind; [apply keeps_modify; intros st; repeat split|].
    intros _. apply keeps_bind; [apply keeps_get|]. intros st1.
    apply keeps_if; [|apply keeps_ret].
    apply keeps_bind.
    + apply keeps_if; [|apply keeps_ret].
      apply keeps_bind; [apply keeps_modify; intros st; repeat split|].
      intros _. apply keeps_modify; intros st; repeat split.
    + intros _. apply keeps_bind; [apply keeps_get|]. intros st2.
      apply keeps_if; [apply keeps_limit_space|apply keeps_ret].
Qed.

Lemma keeps_addTorrentToDB src h metadata :
  keeps_peers (addTorrentToDB src h metadata).
Proof.
  unfold addTorrentToDB.
  apply keeps_bind; [apply keeps_lift|]. intros metainfo.
  apply keeps_bind; [apply keeps_lift|]. intros [namekey metainfo'].
  apply keeps_bind; [apply keeps_lift|]. intros info.
  destruct (path_split src) as [dir name].
  apply keeps_bind; [apply keeps_lift|]. intros ti_name.
  apply keeps_bind; [apply keeps_lift|]. intros has_length.
  apply keeps_bind.
  - apply keeps_if.
    + apply keeps_bind; [apply keeps_lift|]. intros l. apply keeps_ret.
    + apply keeps_bind; [apply keeps_lift|]. intros has_files.
      apply keeps_if; [|apply keeps_ret].
      apply keeps_bind; [apply keeps_lift|]. intros files.
      apply keeps_bind; [apply keeps_lift|]. intros [length nf].
      apply keeps_ret.
  - intros [length nf].
    apply keeps_bind; [apply keeps_lift|]. intros announce.
    apply keeps_bind; [apply keeps_lift|]. intros announce_list.
    apply keeps_bind; [apply keeps_lift|]. intros date.
    apply keeps_bind; [apply keeps_get|]. intros st0.
    apply keeps_bind; [apply keeps_addTorrent|]. intros _.
    apply keeps_bind; [apply keeps_check_overflow_rec|]. intros _.
    apply keeps_sync.
Qed.

Lemma keeps_get_filename metadata h : keeps_peers (get_filename metadata h).
Proof.
  intros st. rewrite get_filename_state. apply same_peers_refl.
Qed.

Lemma keeps_write_torrent metadata dir name :
  keeps_peers (write_torrent metadata dir name).
Proof.
  unfold write_torrent. apply keeps_try_except; [|intros e; apply keeps_ret].
  apply keeps_bind; [apply keeps_get|]. intros st0.
  apply keeps_bind.
  - apply keeps_if; [apply keeps_on_disk|apply keeps_ret].
  - intros _. apply keeps_bind; [apply keeps_on_disk|]. intros _.
    destruct metadata; try apply keeps_raise. apply keeps_on_disk.
Qed.

Lemma keeps_save_torrent h metadata : keeps_peers (save_torrent h metadata).
Proof.
  unfold save_torrent.
  apply keeps_bind; [apply keeps_get_filename|]. intros file_name.
  apply keeps_bind; [apply keeps_get|]. intros st0.
  apply keeps_bind; [apply keeps_addTorrentToDB|]. intros _.
  apply keeps_write_torrent.
Qed.

End Frame.

(* ------------------------------------------------------------------ *)
(** ** Properties: receiving metadata *)
(* ------------------------------------------------------------------ *)

Section Receiving.

Context `{P : Platform}.

(** A message that passes every check of [got_metadata]: the outcome is
    that of [save_torrent], and the download helper hears of the payload
    only when the save returned. *)
Lemma got_metadata_accepts conn message d h metadata st :
  bdecode (tail_str message) = Ok (BDict d) ->
  assoc "torrent_hash" d = Some (BStr h) ->
  len h = 20 ->
  assoc "metadata" d = Some metadata ->
  valid_metadata h metadata = Ok true ->
  got_metadata conn message st
  = match save_torrent h metadata st with
    | (Ok _, st') => (Ok true, notified st' h metadata)
    | (Raise _, st') => (Ok false, st')
    end.
Proof.
  intros Hdec Hh Hlen Hm Hvalid.
  unfold got_metadata. rewrite Hdec. unfold try_except.
  unfold bind at 1. unfold lift at 1. cbn [py_getitem]. rewrite Hh.
  rewrite if_run. cbn [isValidInfohash]. rewrite Hlen. cbn [Z.eqb Pos.eqb negb].
  unfold bind at 1. unfold lift at 1. cbn [py_getitem]. rewrite Hm.
  unfold bind at 1. unfold lift at 1. rewrite Hvalid.
  rewrite if_run. cbn [negb].
  unfold bind at 1.
  destruct (save_torrent h metadata st) as [[[]|e] st'];
    [|reflexivity].
  unfold bind, get, ret, call_dlhelp_task, modify, notified.
  destruct (dlhelper st') eqn:Hd; cbv beta iota; rewrite ?Hd; reflexivity.
Qed.

(** [got_metadata] drops the message and leaves the handler as it was,
    or the message passes every check and the outcome is that of
    [save_torrent]. *)
Lemma got_metadata_cases conn message st :
  got_metadata conn message st = (Ok false, st)
  \/ exists d h metadata,
       bdecode (tail_str message) = Ok (BDict d)
       /\ assoc "torrent_hash" d = Some (BStr h)
       /\ len h = 20
       /\ assoc "metadata" d = Some metadata
       /\ valid_metadata h metadata = Ok true
       /\ got_metadata conn message st
          = match save_torrent h metadata st with
            | (Ok _, st') => (Ok true, notified st' h metadata)
            | (Raise _, st') => (Ok false, st')
            end.
Proof.
  destruct (bdecode (tail_str message)) as [[z|s|l|d]|e] eqn:Hdec;
    try (left; unfold got_metadata; rewrite Hdec; reflexivity).
  destruct (assoc "torrent_hash" d) as [th|] eqn:Hth.
  2:{ left. unfold got_metadata. rewrite Hdec.
      unfold try_except, bind, lift, py_getitem. now rewrite Hth. }
  destruct (isValidInfohash th) eqn:Hvalid.
  2:{ left. unfold got_metadata. rewrite Hdec.
      unfold try_except, bind, lift, py_getitem. now rewrite Hth, Hvalid. }
  destruct th as [z|h|l|d']; try discriminate.
  cbn [isValidInfohash] in Hvalid. apply Z.eqb_eq in Hvalid.
  destruct (assoc "metadata" d) as [metadata|] eqn:Hm.
  2:{ left. unfold got_metadata. rewrite Hdec.
      unfold try_except, bind, lift, py_getitem.
      now rewrite Hth, (isValidInfohash_BStr h Hvalid), Hm. }
  destruct (valid_metadata h metadata) as [[|]|e] eqn:Hv.
  - right. exists d, h, metadata.
    repeat split; try assumption.
    now apply got_metadata_accepts with (d := d).
  - left. unfold got_metadata. rewrite Hdec.
    unfold try_except, bind, lift, py_getitem.
    now rewrite Hth, (isValidInfohash_BStr h Hvalid), Hm, Hv.
  - left. unfold got_metadata. rewrite Hdec.
    unfold try_except, bind, lift, py_getitem.
    now rewrite Hth, (isValidInfohash_BStr h Hvalid), Hm, Hv.
Qed.

(** X9.  What the answers of [got_metadata] stand for.  It never raises
    and never hands anything to the transport.  [True] is returned only
    for a message that carries a 20-byte identifier equal to the SHA-1 of
    the bencoded ['info'] entry of the metadata it carries, and only
    after [save_torrent] has returned; the download helper, if there is
    one, has then received exactly one call more, for that identifier and
    that metadata.  On [False] the download helper has received
    nothing. *)
Theorem got_metadata_answers (conn message : string) (st : handler) :
  secure_overlay (snd (got_metadata conn message st)) = secure_overlay st
  /\ (fst (got_metadata conn message st) = Ok false
      /\ dlhelper (snd (got_metadata conn message st)) = dlhelper st
      \/ fst (got_metadata conn message st) = Ok true
         /\ exists d h metadata info,
              bdecode (tail_str message) = Ok (BDict d)
              /\ assoc "torrent_hash" d = Some (BStr h)
              /\ len h = 20
              /\ assoc "metadata" d = Some metadata
              /\ info_of metadata = Ok info
              /\ sha (bencode info) = h
              /\ fst (save_torrent h metadata st) = Ok tt
              /\ dlhelper (snd (got_metadata conn message st))
                 = option_map (fun calls => (calls ++ [(h, metadata)])%list)
                     (dlhelper st)).
Proof.
  destruct (got_metadata_cases conn message st)
    as [Hdrop|(d & h & metadata & Hdec & Hth & Hlen & Hm & Hv & Hgot)].
  - rewrite Hdrop. split; [reflexivity|]. left. split; reflexivity.
  - rewrite Hgot.
    destruct (keeps_save_torrent h metadata st) as (Hso & Hdl & _).
    destruct (save_torrent h metadata st) as [[[]|e] st'] eqn:Hs;
      cbn [fst snd] in *.
    + split.
      * unfold notified. destruct (dlhelper st'); exact Hso.
      * right. split; [reflexivity|].
        rewrite valid_metadata_eq in Hv.
        destruct (info_of metadata) as [info|e] eqn:Hinfo; [|discriminate].
        injection Hv as Hv. apply String.eqb_eq in Hv.
        exists d, h, metadata, info.
        repeat split; try assumption; [now rewrite Hs|].
        unfold notified. rewrite <- Hdl.
        destruct (dlhelper st') eqn:Hd; cbn [dlhelper set_dlhelper option_map];
          [reflexivity|exact Hd].
    + split; [exact Hso|]. left. split; [reflexivity|exact Hdl].
Qed.

Lemma find_torrent_notified st h m h' :
  find_torrent (notified st h m) h' = find_torrent st h'.
Proof. unfold notified. now destruct (dlhelper st). Qed.

Lemma read_torrent_notified st h m p :
  read_torrent (notified st h m) p = read_torrent st p.
Proof. unfold notified. now destruct (dlhelper st). Qed.

(** X10.  Metadata that was accepted is served as it came.  When
    [got_metadata] has answered [True] to a message carrying the
    identifier [h] and the bytes [data] (handler within its budget, disk
    without fault, the save path a proper path), a GET_METADATA request
    for [h] that reaches the dispatcher afterwards is answered with one
    METADATA message to the requester that carries [h] and exactly
    [data], provided [data] is not empty and not longer than
    [Max_Torrent_Size]. *)
Theorem accepted_metadata_is_served
    (conn requester message h data file_name : string)
    (d : list (string * bvalue)) (st : handler) :
  bdecode (tail_str message) = Ok (BDict d) ->
  assoc "torrent_hash" d = Some (BStr h) ->
  assoc "metadata" d = Some (BStr data) ->
  fst (got_metadata conn message st) = Ok true ->
  0 <= num_torrents st ->
  num_torrents st + 1 <= max_num_torrents ->
  fault (disk st) = NoFault ->
  fst (get_filename (BStr data) h st) = Ok file_name ->
  path_join (config_dir st) file_name <> "" ->
  path_join (fst (path_split (path_join (config_dir st) file_name)))
            (snd (path_split (path_join (config_dir st) file_name)))
  = path_join (config_dir st) file_name ->
  data <> "" ->
  len data <= Max_Torrent_Size ->
  bdecode (bencode (BStr h)) = Ok (BStr h) ->
  handleMessage requester (request_message h)
    (snd (got_metadata conn message st))
  = (Ok true,
     sent (snd (got_metadata conn message st)) requester
       (response_message h data)).
Proof.
  intros Hdec Hth Hm Hok Hpos Hroom Hf Hname Hpath Hjoin Hdata Hsize Hcodec.
  destruct (got_metadata_cases conn message st)
    as [Hdrop|(d' & h' & metadata & Hdec' & Hth' & Hlen & Hm' & Hv & Hgot)].
  { rewrite Hdrop in Hok. discriminate. }
  rewrite Hdec in Hdec'. injection Hdec' as <-.
  rewrite Hth in Hth'. injection Hth' as <-.
  rewrite Hm in Hm'. injection Hm' as <-.
  rewrite Hgot in *.
  destruct (save_torrent_room h (BStr data) st Hpos Hroom Hf)
    as [[e He]|(data' & fn & t & Hd & Hfn & Hsave & Hh & Hdir & Hn)].
  { rewrite He in Hok. discriminate. }
  injection Hd as <-. rewrite Hname in Hfn. injection Hfn as <-.
  rewrite Hsave. cbn [snd].
  destruct (saved_state_serves st h t data file_name Hh Hdir Hn Hjoin)
    as (Hfind & Hread).
  unfold request_message. rewrite handleMessage_GET_METADATA.
  rewrite (send_metadata_found requester
             (String GET_METADATA (bencode (BStr h))) h
             (path_join (config_dir st) file_name) _ Hcodec Hlen);
    [|now rewrite find_torrent_notified|exact Hpath].
  rewrite read_torrent_notified, (read_torrent_of_file _ _ _ Hread).
  rewrite gtb_false by exact Hsize.
  destruct data; [contradiction|reflexivity].
Qed.

End Receiving.

Lemma accepted_metadata_is_served_witness :
  secure_overlay
    (snd (handleMessage (P := Posix.platform 100) Exchange.peer2
            Exchange.request
            (snd (got_metadata (P := Posix.platform 100) Scenario.peer
                    (Scenario.metadata_msg Scenario.good_hash Scenario.metadata)
                    Exchange.settled))))
  = [(Exchange.peer2,
      Scenario.metadata_msg Scenario.good_hash Scenario.metadata)].
Proof.
  change Exchange.request
    with (request_message (P := Posix.platform 100) Scenario.good_hash).
  rewrite (accepted_metadata_is_served (P := Posix.platform 100)
             Scenario.peer Exchange.peer2
             (Scenario.metadata_msg Scenario.good_hash Scenario.metadata)
             Scenario.good_hash Scenario.metadata Exchange.saved_name
             [("metadata", BStr Scenario.metadata);
              ("torrent_hash", BStr Scenario.good_hash)]
             Exchange.settled).
  - vm_compute; reflexivity.
  - vm_compute; reflexivity.
  - vm_compute; reflexivity.
  - vm_compute; reflexivity.
  - vm_compute; reflexivity.
  - vm_compute; discriminate.
  - vm_compute; discriminate.
  - vm_compute; reflexivity.
  - vm_compute; reflexivity.
  - discriminate.
  - vm_compute; reflexivity.
  - discriminate.
  - vm_compute; discriminate.
  - vm_compute; reflexivity.
Defined.

(* ------------------------------------------------------------------ *)
(** ** Properties: the budget of the index *)
(* ------------------------------------------------------------------ *)









Section Budget.

Context `{P : Platform}.




(** [addTorrentToDB] raises before it has touched anything, or hands a
    record of the identifier to the index and runs the capacity check
    and the flush. *)
Lemma addTorrentToDB_parse src h metadata st :
  (exists e, addTorrentToDB src h metadata st = (Raise e, st))
  \/ (exists t metainfo namekey metainfo',
        addTorrentToDB src h metadata st
        = (check_overflow true ;; sync)
            (set_torrent_db st (upsert (torrent_db st) h t))
        /\ infohash t = h
        /\ torrent_dir t = Some (fst (path_split src))
        /\ torrent_name t = Some (snd (path_split src))
        /\ py_bdecode metadata = Ok metainfo
        /\ name2unicode metainfo = Ok (namekey, metainfo')
        /\ py_get metainfo' "creation date" (BInt 0) = Ok (creation_date t)).
Proof.
  remember (addTorrentToDB src h metadata st) as r eqn:Hr.
  unfold addTorrentToDB in Hr.
  unfold bind at 1 in Hr. unfold lift at 1 in Hr.
  destruct (py_bdecode metadata) as [metainfo|e] eqn:Hdec;
    [|left; now exists e].
  unfold bind at 1 in Hr. unfold lift at 1 in Hr.
  destruct (name2unicode metainfo) as [[namekey metainfo']|e] eqn:Hname;
    [|left; now exists e].
  unfold bind at 1 in Hr. unfold lift at 1 in Hr.
  destruct (py_getitem metainfo' "info") as [info|e]; [|left; now exists e].
  destruct (path_split src) as [dir name] eqn:Hsplit.
  unfold bind at 1 in Hr. unfold lift at 1 in Hr.
  destruct (py_get info namekey (BStr "")) as [ti_name|e];
    [|left; now exists e].
  unfold bind at 1 in Hr. unfold lift at 1 in Hr.
  destruct (py_has_key info "length") as [has_length|e];
    [|left; now exists e].
  unfold bind at 1 in Hr.
  match type of Hr with
  | _ = match ?m st with _ => _ end =>
      assert (Hm : snd (m st) = st);
      [|destruct (m st) as [[[length nf]|e] st0]; cbn [snd] in Hm; subst st0;
        [|left; now exists e]]
  end.
  { rewrite if_run. destruct has_length.
    - unfold bind, lift, ret. now destruct (py_get info "length" (BInt 0)).
    - unfold bind, lift, ret.
      destruct (py_has_key info "files") as [[|]|]; try reflexivity.
      destruct (py_getitem info "files"); [|reflexivity].
      now destruct (count_files _) as [[? ?]|]. }
  unfold bind at 1 in Hr. unfold lift at 1 in Hr.
  destruct (py_get metainfo' "announce" (BStr "")) as [announce|e];
    [|left; now exists e].
  unfold bind at 1 in Hr. unfold lift at 1 in Hr.
  destruct (py_get metainfo' "announce-list" (BStr "")) as [announce_list|e];
    [|left; now exists e].
  unfold bind at 1 in Hr. unfold lift at 1 in Hr.
  destruct (py_get metainfo' "creation date" (BInt 0)) as [date|e] eqn:Hdate;
    [|left; now exists e].
  right.
  unfold bind at 1 in Hr. unfold get at 1 in Hr.
  unfold bind at 1 in Hr. unfold addTorrent, modify in Hr.
  subst r.
  eexists. exists metainfo, namekey, metainfo'.
  split; [reflexivity|]. cbn. repeat split; try reflexivity; assumption.
Qed.


End Budget.


(* ------------------------------------------------------------------ *)
(** ** Properties: a creation date that is not a number *)
(* ------------------------------------------------------------------ *)

Lemma get_weight_bad now t :
  ~ numeric_date t -> get_weight now t = Raise TypeError.
Proof.
  intros Hbad. unfold get_weight. fold (creation_date t).
  destruct (creation_date t) as [z|s|l|d] eqn:Hd; try reflexivity.
  exfalso. apply Hbad. now exists z.
Qed.

Lemma weigh_bad now l :
  Exists (fun t => ~ numeric_date t) l ->
  exists r, weigh now l = (r, Some TypeError).
Proof.
  induction l as [|t l IH]; intros Hex; [inversion Hex|].
  cbn [weigh]. destruct (get_weight now t) as [w|e] eqn:Hw.
  - inversion Hex as [? ? Hbad|? ? Hex']; subst.
    + rewrite (get_weight_bad now t Hbad) in Hw. discriminate.
    + destruct (IH Hex') as [r Hr]. rewrite Hr. now eexists.
  - assert (e = TypeError) as ->.
    { unfold get_weight in Hw.
      destruct (match info t with
                | Some i => match ti_creation_date i with
                            | Some d => d | None => BInt 0 end
                | None => BInt 0 end); congruence. }
    now eexists.
Qed.

Section BadDate.

Context `{P : Platform}.

(** [limit_space] on a snapshot with such a record: it raises while
    weighing and deletes nothing. *)
Lemma limit_space_bad st :
  Exists (fun t => ~ numeric_date t) (torrent_list st) ->
  exists r, limit_space st = (Raise TypeError, set_torrent_list st r).
Proof.
  intros Hex. destruct (weigh_bad (clock st) (torrent_list st) Hex) as [r Hr].
  exists r. unfold limit_space, bind, get. rewrite Hr. reflexivity.
Qed.

(** X14.  One record whose creation date is not a number blocks the
    eviction.  A capacity check on an initialised counter that finds the
    index over the budget raises [TypeError] from [get_weight] when the
    index holds such a record: nothing is deleted, index, flushed copy
    and disk are as before, and the counter is left at the number of
    records, over the budget, so that the next check meets the same
    conditions again. *)
Theorem bad_date_blocks_eviction (st : handler) :
  0 <= num_torrents st ->
  max_num_torrents < num_torrents st + 1 ->
  max_num_torrents < Z.of_nat (List.length (torrent_db st)) ->
  Exists (fun t => ~ numeric_date t) (torrent_db st) ->
  fst (check_overflow true st) = Raise TypeError
  /\ torrent_db (snd (check_overflow true st)) = torrent_db st
  /\ torrent_db_synced (snd (check_overflow true st)) = torrent_db_synced st
  /\ disk (snd (check_overflow true st)) = disk st
  /\ num_torrents (snd (check_overflow true st))
     = Z.of_nat (List.length (torrent_db st))
  /\ 0 <= num_torrents (snd (check_overflow true st))
  /\ max_num_torrents < num_torrents (snd (check_overflow true st)) + 1.
Proof.
  intros Hpos Hover Hfull Hex.
  rewrite check_overflow_eq, check_overflow_counted by exact Hpos.
  rewrite count_and_check_evict by assumption.
  destruct (limit_space_bad (recount st)) as [r Hr]; [exact Hex|].
  rewrite Hr.
  cbn [fst snd torrent_db torrent_db_synced disk num_torrents recount
       set_torrent_list set_num_torrents].
  repeat split; lia.
Qed.

(** X15.  The creation date of received metadata is stored unchecked.
    When the index is full and the metadata carries a creation date that
    is not an integer, [save_torrent] never returns normally: it raises
    while reading the metadata, with the handler left as it was, or it
    raises [TypeError] from the eviction after the record, with that
    date, has been put into the index; the record then stays in the
    index, the index is not flushed and no file is written. *)
Theorem unchecked_date_fails_the_save
    (h : string) (metadata metainfo metainfo' date : bvalue)
    (namekey : string) (st : handler) :
  0 <= num_torrents st ->
  max_num_torrents < num_torrents st + 1 ->
  max_num_torrents <= Z.of_nat (List.length (db_remove (torrent_db st) h)) ->
  py_bdecode metadata = Ok metainfo ->
  name2unicode metainfo = Ok (namekey, metainfo') ->
  py_get metainfo' "creation date" (BInt 0) = Ok date ->
  (forall z, date <> BInt z) ->
  match save_torrent h metadata st with
  | (Ok _, _) => False
  | (Raise e, st') =>
      st' = st
      \/ (e = TypeError
          /\ exists t,
               infohash t = h
               /\ creation_date t = date
               /\ torrent_db st' = upsert (torrent_db st) h t
               /\ torrent_db_synced st' = torrent_db_synced st
               /\ disk st' = disk st)
  end.
Proof.
  intros Hpos Hover Hfull Hdec Hname Hdate Hbad.
  rewrite save_torrent_unfold.
  destruct (fst (get_filename metadata h st)) as [file_name|e]; [|now left].
  destruct (addTorrentToDB_parse (path_join (config_dir st) file_name) h
              metadata st)
    as [[e He]|(t & mi & nk & mi' & Hadd & Hh & _ & _ & Hdec' & Hname' & Hdate')].
  { rewrite He. now left. }
  rewrite Hdec in Hdec'. injection Hdec' as <-.
  rewrite Hname in Hname'. injection Hname' as <- <-.
  rewrite Hdate in Hdate'. injection Hdate' as Hdate'.
  rewrite Hadd. unfold bind at 1.
  rewrite check_overflow_eq, check_overflow_counted
    by (cbn [num_torrents set_torrent_db]; exact Hpos).
  assert (Hlen : Z.of_nat (List.length (upsert (torrent_db st) h t))
                 = Z.of_nat (List.length (db_remove (torrent_db st) h)) + 1).
  { unfold upsert. rewrite length_app. cbn [List.length]. lia. }
  rewrite count_and_check_evict
    by (cbn [num_torrents torrent_db set_torrent_db]; lia).
  destruct (limit_space_bad
              (recount (set_torrent_db st (upsert (torrent_db st) h t))))
    as [r Hr].
  { cbn [torrent_list recount set_torrent_list set_num_torrents
         getRecommendedTorrents torrent_db set_torrent_db].
    unfold upsert. apply Exists_app. right. constructor.
    intros [z Hz]. apply (Hbad z). now rewrite Hdate'. }
  rewrite Hr. right. split; [reflexivity|].
  exists t. repeat split; [exact Hh|now symmetry].
Qed.

End BadDate.

Lemma bad_date_blocks_eviction_witness :
  fst (check_overflow (P := Posix.platform 2) true Exchange.blocked)
  = Raise TypeError
  /\ torrent_db (snd (check_overflow (P := Posix.platform 2) true
                        Exchange.blocked))
     = torrent_db Exchange.blocked.
Proof.
  destruct (bad_date_blocks_eviction (P := Posix.platform 2) Exchange.blocked)
    as (Hr & Hdb & _).
  - vm_compute; discriminate.
  - vm_compute; reflexivity.
  - vm_compute; reflexivity.
  - apply Exists_cons_hd. intros [z Hz]. vm_compute in Hz. discriminate.
  - split; [exact Hr|exact Hdb].
Defined.

Lemma unchecked_date_fails_the_save_witness :
  fst (save_torrent (P := Posix.platform 2) Scenario.good_hash
         (BStr Exchange.undated_metadata) (Scenario.running 2 2 2))
  = Raise TypeError
  /\ List.length
       (torrent_db (snd (save_torrent (P := Posix.platform 2)
          Scenario.good_hash (BStr Exchange.undated_metadata)
          (Scenario.running 2 2 2)))) = 3%nat
  /\ files (disk (snd (save_torrent (P := Posix.platform 2)
       Scenario.good_hash (BStr Exchange.undated_metadata)
       (Scenario.running 2 2 2)))) = [].
Proof.
  assert (H := unchecked_date_fails_the_save (P := Posix.platform 2)
                 Scenario.good_hash (BStr Exchange.undated_metadata)
                 (BDict Exchange.undated_metainfo)
                 (BDict Exchange.undated_metainfo) (BStr "soon") "name"
                 (Scenario.running 2 2 2)).
  assert (H1 : 0 <= num_torrents (Scenario.running 2 2 2))
    by (vm_compute; discriminate).
  assert (H2 : max_num_torrents (Platform := Posix.platform 2)
               < num_torrents (Scenario.running 2 2 2) + 1)
    by (vm_compute; reflexivity).
  assert (H3 : max_num_torrents (Platform := Posix.platform 2)
               <= Z.of_nat (List.length
                    (db_remove (torrent_db (Scenario.running 2 2 2))
                       Scenario.good_hash)))
    by (vm_compute; discriminate).
  specialize (H H1 H2 H3).
  assert (H4 : py_bdecode (H := Posix.platform 2)
                 (BStr Exchange.undated_metadata)
               = Ok (BDict Exchange.undated_metainfo))
    by (vm_compute; reflexivity).
  assert (H5 : name2unicode (Platform := Posix.platform 2)
                 (BDict Exchange.undated_metainfo)
               = Ok ("name", BDict Exchange.undated_metainfo))
    by (vm_compute; reflexivity).
  assert (H6 : py_get (BDict Exchange.undated_metainfo) "creation date"
                 (BInt 0) = Ok (BStr "soon"))
    by (vm_compute; reflexivity).
  assert (H7 : forall z, BStr "soon" <> BInt z) by (intros z Hz; discriminate).
  specialize (H H4 H5 H6 H7).
  destruct (save_torrent (P := Posix.platform 2) Scenario.good_hash
              (BStr Exchange.undated_metadata) (Scenario.running 2 2 2))
    as [[[]|e] st'] eqn:Hrun; [destruct H|].
  vm_compute in Hrun. injection Hrun as <- <-. vm_compute. repeat split.
Defined.

(* ------------------------------------------------------------------ *)
(** ** Properties: the self-call of the capacity check *)
(* ------------------------------------------------------------------ *)

Section Depth.

Context `{P : Platform}.

(** X12.  [check_overflow] calls itself at most once.  The self-call is
    made only on a counter still to be initialised and finds it
    initialised, so two interpreter frames give the result of
    [check_overflow] whatever the limit; one frame does so when the
    counter is initialised, and on a counter still to be initialised a
    single frame ends in [RuntimeError] with the counter re-derived from
    the index and nothing else done. *)
Theorem check_overflow_depth (frames : nat) (update : bool) (st : handler) :
  check_overflow_rec (S (S frames)) update st = check_overflow update st
  /\ (0 <= num_torrents st ->
      check_overflow_rec 1 update st = check_overflow update st)
  /\ (num_torrents st < 0 ->
      check_overflow_rec 1 update st = (Raise RuntimeError, recount st)).
Proof.
  split; [|split].
  - now rewrite check_overflow_frames, check_overflow_eq.
  - intros Hpos.
    now rewrite check_overflow_eq, !check_overflow_counted by exact Hpos.
  - intros Hneg. rewrite check_overflow_step.
    destruct (Z.ltb_spec (num_torrents st) 0) as [_|Hpos]; [reflexivity|lia].
Qed.

End Depth.

(* ------------------------------------------------------------------ *)
(** ** Properties: saving a torrent whose file name is taken *)
(* ------------------------------------------------------------------ *)

Section Resaving.

Context `{P : Platform}.

(** X16.  A save whose derived file name is taken does not overwrite.
    When something exists at the path of the name derived from the
    identifier, [save_torrent] (within the budget, disk without fault)
    stores the payload under the time-stamped name instead: the record
    of the identifier then locates the new file, which holds the bytes
    saved, and whatever was at the derived path is left as it was,
    provided the two paths differ. *)
Theorem resave_keeps_old_file
    (h data : string) (metainfo : bvalue) (st : handler) :
  0 <= num_torrents st ->
  num_torrents st + 1 <= max_num_torrents ->
  fault (disk st) = NoFault ->
  bdecode data = Ok metainfo ->
  exists_path (disk st) (path_join (config_dir st) (derived_name h)) = true ->
  path_join (config_dir st) (derived_name h)
  <> path_join (config_dir st) (stamped_name (clock st) h) ->
  path_join
    (fst (path_split (path_join (config_dir st) (stamped_name (clock st) h))))
    (snd (path_split (path_join (config_dir st) (stamped_name (clock st) h))))
  = path_join (config_dir st) (stamped_name (clock st) h) ->
  fst (save_torrent h (BStr data) st) = Ok tt ->
  find_torrent (snd (save_torrent h (BStr data) st)) h
  = Some (path_join (config_dir st) (stamped_name (clock st) h))
  /\ read_file (disk (snd (save_torrent h (BStr data) st)))
       (path_join (config_dir st) (stamped_name (clock st) h)) = Ok data
  /\ assoc (path_join (config_dir st) (derived_name h))
       (files (disk (snd (save_torrent h (BStr data) st))))
     = assoc (path_join (config_dir st) (derived_name h)) (files (disk st)).
Proof.
  intros Hpos Hroom Hf Hdec Hex Hne Hjoin Hok.
  pose proof (get_filename_name (BStr data) h st metainfo Hdec) as Hname.
  rewrite Hex in Hname.
  destruct (save_torrent_room h (BStr data) st Hpos Hroom Hf)
    as [[e He]|(data' & fn & t & Hd & Hfn & Hsave & Hh & Hdir & Hn)].
  { rewrite He in Hok. discriminate. }
  injection Hd as <-. rewrite Hname in Hfn. injection Hfn as <-.
  rewrite Hsave. cbn [snd].
  destruct (saved_state_serves st h t data (stamped_name (clock st) h)
              Hh Hdir Hn Hjoin) as (Hfind & Hread).
  split; [exact Hfind|]. split; [exact Hread|].
  cbn [disk set_disk]. rewrite put_file_other by exact Hne.
  now rewrite with_dir_files.
Qed.

End Resaving.

Lemma resave_keeps_old_file_witness :
  find_torrent (P := Posix.platform 100)
    (snd (save_torrent (P := Posix.platform 100) Scenario.good_hash
            (BStr Scenario.metadata) Exchange.once_saved))
    Scenario.good_hash
  = Some ("/cfg/torrent2/" ++ Exchange.stamped_saved_name)%string
  /\ assoc Exchange.saved_path
       (files (disk (snd (save_torrent (P := Posix.platform 100)
          Scenario.good_hash (BStr Scenario.metadata) Exchange.once_saved))))
     = Some (mk_file Scenario.metadata true).
Proof.
  destruct (resave_keeps_old_file (P := Posix.platform 100)
              Scenario.good_hash Scenario.metadata
              (BDict [("announce", BStr "url"); ("info", Scenario.info_dict)])
              Exchange.once_saved) as (Hfind & _ & Hold).
  - vm_compute; discriminate.
  - vm_compute; discriminate.
  - vm_compute; reflexivity.
  - vm_compute; reflexivity.
  - vm_compute; reflexivity.
  - vm_compute; discriminate.
  - vm_compute; reflexivity.
  - vm_compute; reflexivity.
  - split.
    + etransitivity; [exact Hfind|]. vm_compute. reflexivity.
    + etransitivity; [exact Hold|]. vm_compute. reflexivity.
Defined.

(* ------------------------------------------------------------------ *)
(** ** Properties: the table models of the GUI *)
(* ------------------------------------------------------------------ *)

Lemma value_eqb_spec a b : reflect (a = b) (Table.value_eqb a b).
Proof.
  destruct a as [|x|s], b as [|y|t]; cbn; try (constructor; congruence).
  - destruct (Z.eqb_spec x y); constructor; congruence.
  - destruct (String.eqb_spec s t); constructor; congruence.
Qed.

Lemma value_eqb_refl a : Table.value_eqb a a = true.
Proof. now destruct (value_eqb_spec a a). Qed.

Lemma lookup_app u m1 m2 :
  Table.lookup u (m1 ++ m2)%list
  = match Table.lookup u m1 with
    | Some r => Some r
    | None => Table.lookup u m2
    end.
Proof.
  induction m1 as [|[k r] m1 IH]; [reflexivity|]. cbn.
  now destruct (Table.value_eqb u k).
Qed.

Lemma lookup_In u m r :
  Table.lookup u m = Some r -> In (u, r) m.
Proof.
  induction m as [|[k r'] m IH]; cbn; [discriminate|].
  destruct (value_eqb_spec u k) as [->|_].
  - intros [= ->]. now left.
  - intros H. right. now apply IH.
Qed.

Lemma lookup_absent u m :
  ~ In u (map fst m) -> Table.lookup u m = None.
Proof.
  induction m as [|[k r] m IH]; cbn; [reflexivity|]. intros Hn.
  destruct (value_eqb_spec u k) as [->|_]; [exfalso; apply Hn; now left|].
  apply IH. intros H. apply Hn. now right.
Qed.

Section TableModel.

Variable uid_of : Table.item -> Table.value.

(** The bindings the first loop of [add_items] stores for the items it
    takes, the latest first. *)
Lemma scan_spec old new : forall nm i U,
  Table.scan uid_of old new nm i U
  = ((rev (combine (map uid_of (Table.fresh uid_of old new))
             (seq i (List.length (Table.fresh uid_of old new)))) ++ nm)%list,
     (i + List.length (Table.fresh uid_of old new))%nat,
     (U ++ Table.fresh uid_of old new)%list).
Proof.
  induction new as [|it new IH]; intros nm i U.
  - cbn. now rewrite Nat.add_0_r, app_nil_r.
  - cbn [Table.scan Table.fresh filter].
    fold (Table.fresh uid_of old new).
    destruct (Table.truth (uid_of it)
              && negb (Table.known (uid_of it) old))%bool.
    + rewrite IH. cbn [map List.length seq combine rev].
      unfold Table.store. rewrite <- !app_assoc. cbn [app].
      now rewrite Nat.add_succ_r.
    + apply IH.
Qed.

(** [add_items] in one piece: nothing happens when the batch has nothing
    to take; else the items taken go before or after the rows, the map is
    built anew and one insertion is signalled. *)
Lemma add_items_eq new remote m :
  Table.add_items uid_of new remote m
  = match Table.fresh uid_of (Table.item_uid_map m) new with
    | [] => m
    | _ :: _ =>
        let F := Table.fresh uid_of (Table.item_uid_map m) new in
        Table.mk_model
          (if remote then F ++ Table.data_items m
           else Table.data_items m ++ F)%list
          (if remote
           then Table.shift uid_of (Table.item_uid_map m) (List.length F)
                  (Table.data_items m)
                  (rev (combine (map uid_of F) (seq 0 (List.length F))))
           else rev (combine (map uid_of F)
                       (seq (List.length (Table.data_items m))
                          (List.length F))))
          (Table.total_items m)
          (Table.emitted m
           ++ [Table.RowsInserted 0 (Z.of_nat (List.length F) - 1)])%list
    end.
Proof.
  unfold Table.add_items. destruct new as [|it new]; [reflexivity|].
  rewrite scan_spec. rewrite app_nil_r. cbn [app].
  destruct (Table.fresh uid_of (Table.item_uid_map m) (it :: new)) as [|f F];
    [reflexivity|].
  destruct remote; cbn [negb]; cbv zeta; reflexivity.
Qed.

(** X17.  What [add_items] puts into the table.  Of a batch it takes
    exactly the items whose unique id is true and is not a key of the
    map, in their order; two items of the batch with the same id are
    both taken.  Remote items go before the rows, local ones after them;
    nothing else about the rows changes and [total_items] stays.  When
    the batch has nothing to take the model is left as it was and no
    signal is emitted; else one insertion is signalled, always for the
    rows 0 to (number taken - 1), also when the items were appended. *)
Theorem add_items_rows
    (new : list Table.item) (remote : bool) (m : Table.model) :
  Table.data_items (Table.add_items uid_of new remote m)
  = (if remote
     then Table.fresh uid_of (Table.item_uid_map m) new ++ Table.data_items m
     else Table.data_items m ++ Table.fresh uid_of (Table.item_uid_map m) new)%list
  /\ Table.total_items (Table.add_items uid_of new remote m)
     = Table.total_items m
  /\ Table.rowCount (Table.add_items uid_of new remote m)
     = Table.rowCount m
       + Z.of_nat (List.length (Table.fresh uid_of (Table.item_uid_map m) new))
  /\ (Table.fresh uid_of (Table.item_uid_map m) new = [] ->
      Table.add_items uid_of new remote m = m)
  /\ (Table.fresh uid_of (Table.item_uid_map m) new <> [] ->
      Table.emitted (Table.add_items uid_of new remote m)
      = (Table.emitted m
         ++ [Table.RowsInserted 0
               (Z.of_nat (List.length
                  (Table.fresh uid_of (Table.item_uid_map m) new)) - 1)])%list).
Proof.
  rewrite add_items_eq. unfold Table.rowCount.
  destruct (Table.fresh uid_of (Table.item_uid_map m) new) as [|f F] eqn:HF.
  - repeat split; try (intros H; congruence).
    + destruct remote; [reflexivity|now rewrite app_nil_r].
    + cbn. lia.
  - cbv zeta. cbn [Table.data_items Table.total_items Table.emitted].
    repeat split; try (intros H; congruence).
    destruct remote; rewrite length_app; lia.
Qed.

Lemma fresh_binding_In F : forall i u r,
  In (u, r) (combine (map uid_of F) (seq i (List.length F))) ->
  (i <= r < i + List.length F)%nat
  /\ exists it, nth_error F (r - i) = Some it /\ uid_of it = u.
Proof.
  induction F as [|f F IH]; intros i u r Hin; [destruct Hin|].
  cbn [map List.length seq combine] in Hin. destruct Hin as [Heq|Hin].
  - injection Heq as <- <-. split; [cbn; lia|].
    exists f. rewrite Nat.sub_diag. now split.
  - destruct (IH (S i) u r Hin) as (Hr & it & Hnth & Hu).
    split; [cbn; lia|]. exists it. split; [|exact Hu].
    replace (r - i)%nat with (S (r - S i)) by lia. exact Hnth.
Qed.

Lemma fresh_binding F i u r :
  Table.lookup u (rev (combine (map uid_of F) (seq i (List.length F))))
  = Some r ->
  (i <= r < i + List.length F)%nat
  /\ exists it, nth_error F (r - i) = Some it /\ uid_of it = u.
Proof.
  intros H. apply lookup_In in H. apply in_rev in H.
  now apply fresh_binding_In.
Qed.

Lemma fresh_binding_keys F i :
  map fst (rev (combine (map uid_of F) (seq i (List.length F))))
  = rev (map uid_of F).
Proof.
  rewrite map_rev. f_equal. revert i.
  induction F as [|f F IH]; intros i; [reflexivity|].
  cbn [map List.length seq combine fst]. now rewrite IH.
Qed.

(** The second loop of [add_items] adds bindings for the rows the old
    map knows, moved down by [k]. *)
Lemma shift_lookup old k items : forall nm u r,
  Table.lookup u (Table.shift uid_of old k items nm) = Some r ->
  Table.lookup u nm = Some r
  \/ exists r0, Table.lookup u old = Some r0 /\ r = (k + r0)%nat.
Proof.
  induction items as [|it items IH]; intros nm u r H; [now left|].
  cbn [Table.shift] in H.
  destruct (Table.lookup (uid_of it) old) as [row|] eqn:Hold.
  - apply IH in H. destruct H as [H|H]; [|now right].
    unfold Table.store in H. cbn [Table.lookup] in H.
    destruct (value_eqb_spec u (uid_of it)) as [->|_]; [|now left].
    injection H as <-. right. now exists row.
  - now apply IH in H.
Qed.

Lemma shift_lookup_unknown old k items : forall nm u,
  Table.lookup u old = None ->
  Table.lookup u (Table.shift uid_of old k items nm) = Table.lookup u nm.
Proof.
  induction items as [|it items IH]; intros nm u Hu; [reflexivity|].
  cbn [Table.shift].
  destruct (Table.lookup (uid_of it) old) as [row|] eqn:Hold.
  - rewrite IH by exact Hu. unfold Table.store. cbn [Table.lookup].
    destruct (value_eqb_spec u (uid_of it)) as [->|_]; [congruence|reflexivity].
  - now apply IH.
Qed.

(** [add_items] keeps the map pointing at rows that hold the item of the
    unique id. *)
Lemma add_items_consistent new remote m :
  Table.consistent uid_of m ->
  Table.consistent uid_of (Table.add_items uid_of new remote m).
Proof.
  intros Hm. rewrite add_items_eq.
  destruct (Table.fresh uid_of (Table.item_uid_map m) new) as [|f F0] eqn:HF;
    [exact Hm|].
  cbv zeta. set (F := f :: F0) in *. clearbody F.
  intros u r. cbn [Table.item_uid_map Table.data_items]. destruct remote.
  - intros H. apply shift_lookup in H. destruct H as [H|(r0 & H0 & ->)].
    + apply fresh_binding in H. destruct H as (Hr & it & Hnth & Hu).
      exists it. split; [|exact Hu].
      rewrite Nat.sub_0_r in Hnth.
      rewrite nth_error_app1 by lia. exact Hnth.
    + destruct (Hm u r0 H0) as (it & Hnth & Hu). exists it.
      split; [|exact Hu]. rewrite nth_error_app2 by lia.
      now replace (List.length F + r0 - List.length F)%nat with r0 by lia.
  - intros H. apply fresh_binding in H. destruct H as (Hr & it & Hnth & Hu).
    exists it. split; [|exact Hu]. rewrite nth_error_app2 by lia. exact Hnth.
Qed.

Lemma fresh_single old it :
  Table.truth (uid_of it) = true ->
  Table.lookup (uid_of it) old = None ->
  Table.fresh uid_of old [it] = [it].
Proof.
  intros Ht Hl. unfold Table.fresh, Table.known. cbn [filter].
  now rewrite Ht, Hl.
Qed.

Lemma fresh_unknown old new it :
  In it (Table.fresh uid_of old new) -> Table.lookup (uid_of it) old = None.
Proof.
  unfold Table.fresh, Table.known. rewrite filter_In, andb_true_iff.
  intros (_ & _ & H). now destruct (Table.lookup (uid_of it) old).
Qed.

(** X19.  A local batch makes the map forget the rows it had.  After
    [add_items] with [remote=False] has taken at least one item, the map
    holds the unique ids of the items just taken and no other: the ids of
    the rows that were there before are gone, although the rows are still
    in the table.  So an item of an earlier row that has a true unique id
    is taken again by the next local batch that brings it, and is then in
    the table twice. *)
Theorem local_add_forgets (new : list Table.item) (m : Table.model) :
  Table.fresh uid_of (Table.item_uid_map m) new <> [] ->
  (forall u,
     ~ In u (map uid_of (Table.fresh uid_of (Table.item_uid_map m) new)) ->
     Table.lookup u
       (Table.item_uid_map (Table.add_items uid_of new false m)) = None)
  /\ (forall it,
        In it (Table.data_items m) ->
        Table.truth (uid_of it) = true ->
        ~ In (uid_of it)
            (map uid_of (Table.fresh uid_of (Table.item_uid_map m) new)) ->
        Table.data_items
          (Table.add_items uid_of [it] false
             (Table.add_items uid_of new false m))
        = (Table.data_items m
           ++ Table.fresh uid_of (Table.item_uid_map m) new ++ [it])%list).
Proof.
  intros Hne.
  assert (Hforget : forall u,
    ~ In u (map uid_of (Table.fresh uid_of (Table.item_uid_map m) new)) ->
    Table.lookup u
      (Table.item_uid_map (Table.add_items uid_of new false m)) = None).
  { intros u Hu. rewrite add_items_eq.
    destruct (Table.fresh uid_of (Table.item_uid_map m) new) as [|f F0] eqn:HF;
      [congruence|].
    cbv zeta. cbn [Table.item_uid_map]. apply lookup_absent.
    rewrite fresh_binding_keys. intros H. apply Hu. now apply in_rev. }
  split; [exact Hforget|].
  intros it Hin Ht Hu.
  rewrite (add_items_eq [it] false).
  rewrite (fresh_single _ it Ht (Hforget _ Hu)). cbv zeta.
  cbn [Table.data_items]. rewrite add_items_eq.
  destruct (Table.fresh uid_of (Table.item_uid_map m) new) as [|f F0] eqn:HF;
    [congruence|].
  cbv zeta. cbn [Table.data_items]. now rewrite <- app_assoc.
Qed.

(** The row the map gives the item taken first, when the items taken
    start at row 0. *)
Lemma first_taken_row new remote m it rest :
  Table.fresh uid_of (Table.item_uid_map m) new = it :: rest ->
  remote = true \/ Table.data_items m = [] ->
  ~ In (uid_of it) (map uid_of rest) ->
  Table.lookup (uid_of it)
    (Table.item_uid_map (Table.add_items uid_of new remote m)) = Some O.
Proof.
  intros HF Hstart Hnot.
  assert (Hunknown : Table.lookup (uid_of it) (Table.item_uid_map m) = None).
  { apply (fresh_unknown _ new). rewrite HF. now left. }
  assert (Hrow : forall i,
    Table.lookup (uid_of it)
      (rev (combine (map uid_of (it :: rest))
              (seq i (List.length (it :: rest))))) = Some i).
  { intros i. cbn [map List.length seq combine rev]. rewrite lookup_app.
    rewrite lookup_absent.
    - cbn [Table.lookup]. now rewrite value_eqb_refl.
    - rewrite fresh_binding_keys. intros H. apply Hnot. now apply in_rev. }
  rewrite add_items_eq, HF. cbv zeta. cbn [Table.item_uid_map].
  destruct remote.
  - rewrite shift_lookup_unknown by exact Hunknown. apply Hrow.
  - destruct Hstart as [Hr|Hd]; [discriminate|]. rewrite Hd. apply Hrow.
Qed.

(** X20.  The first row is never updated.  When the items [add_items]
    takes start at row 0 (a remote batch, or a local one into an empty
    table) the map gives row 0 to the item taken first, unless a later
    item of the batch has the same unique id.  [update_torrent_info]
    reads that row as "no row" and does nothing: for an update that
    carries the unique id of that item the model is left as it was, no
    entry of the item is changed and no signal is emitted. *)
Theorem first_row_is_never_updated
    (columns : nat) (new : list Table.item) (remote : bool) (m : Table.model)
    (it : Table.item) (rest : list Table.item) (update_dict : Table.item) :
  Table.fresh uid_of (Table.item_uid_map m) new = it :: rest ->
  remote = true \/ Table.data_items m = [] ->
  ~ In (uid_of it) (map uid_of rest) ->
  assoc "infohash" update_dict = Some (uid_of it) ->
  nth_error (Table.data_items (Table.add_items uid_of new remote m)) 0
  = Some it
  /\ Table.lookup (uid_of it)
       (Table.item_uid_map (Table.add_items uid_of new remote m)) = Some O
  /\ Table.update_torrent_info columns update_dict
       (Table.add_items uid_of new remote m)
     = Ok (Table.add_items uid_of new remote m).
Proof.
  intros HF Hstart Hnot Hupd.
  pose proof (first_taken_row new remote m it rest HF Hstart Hnot) as Hrow.
  split; [|split; [exact Hrow|]].
  - rewrite add_items_eq, HF. cbv zeta. cbn [Table.data_items].
    destruct remote; [reflexivity|].
    destruct Hstart as [Hr|Hd]; [discriminate|]. now rewrite Hd.
  - unfold Table.update_torrent_info. now rewrite Hupd, Hrow.
Qed.

End TableModel.

Lemma assoc_app {A} (k : string) (a b : list (string * A)) :
  assoc k (a ++ b)%list
  = match assoc k a with Some v => Some v | None => assoc k b end.
Proof.
  induction a as [|[k' v] a IH]; [reflexivity|]. cbn.
  now destruct (String.eqb k k').
Qed.

Lemma nth_error_set_row_same l : forall row d x,
  nth_error l row = Some d ->
  nth_error (Table.set_row l row x) row = Some x.
Proof.
  induction l as [|y l IH]; intros [|row] d x H; cbn in *;
    try discriminate; [reflexivity|]. now apply IH with (d := d).
Qed.

Lemma nth_error_set_row_other l : forall row row' x,
  row' <> row ->
  nth_error (Table.set_row l row x) row' = nth_error l row'.
Proof.
  induction l as [|y l IH]; intros [|row] [|row'] x H; cbn;
    try reflexivity; try congruence.
  apply IH. congruence.
Qed.

(** [update_torrent_info] keeps the map pointing at rows that hold the
    item of the unique id: the row it updates gets the ['infohash'] it
    was found by. *)
Lemma update_torrent_info_consistent str_of columns update_dict m m' :
  Table.consistent (Table.get_item_uid str_of) m ->
  Table.update_torrent_info columns update_dict m = Ok m' ->
  Table.consistent (Table.get_item_uid str_of) m'.
Proof.
  intros Hm Hrun. unfold Table.update_torrent_info in Hrun.
  destruct (assoc "infohash" update_dict) as [h|] eqn:Hh; [|discriminate].
  destruct (Table.lookup h (Table.item_uid_map m)) as [[|r]|] eqn:Hl;
    try (injection Hrun as <-; exact Hm).
  destruct (nth_error (Table.data_items m) (S r)) as [d|] eqn:Hd;
    [|discriminate].
  injection Hrun as <-. intros u row.
  cbn [Table.item_uid_map Table.data_items]. intros Hu.
  destruct (Hm u row Hu) as (it & Hnth & Huid).
  destruct (Nat.eq_dec row (S r)) as [->|Hne].
  - exists (Table.update d update_dict). split.
    + now apply nth_error_set_row_same with (d := d).
    + destruct (Hm h (S r) Hl) as (it' & Hnth' & Huid').
      rewrite Hnth in Hnth'. injection Hnth' as <-.
      rewrite <- Huid, Huid'.
      unfold Table.get_item_uid, Table.update. now rewrite assoc_app, Hh.
  - exists it. split; [|exact Huid].
    now rewrite nth_error_set_row_other.
Qed.

(** X18.  The map never points at a wrong row.  If every row the map
    gives holds an item of that unique id, this is still so after
    [add_items], local or remote, after [update_torrent_info] and after
    [reset]; and it is so for the model as constructed. *)
Theorem uid_map_stays_consistent (str_of : Table.value -> string) :
  Table.consistent (Table.get_item_uid str_of) Table.init
  /\ (forall m, Table.consistent (Table.get_item_uid str_of) (Table.reset m))
  /\ (forall new remote m,
        Table.consistent (Table.get_item_uid str_of) m ->
        Table.consistent (Table.get_item_uid str_of)
          (Table.add_items (Table.get_item_uid str_of) new remote m))
  /\ (forall columns update_dict m m',
        Table.consistent (Table.get_item_uid str_of) m ->
        Table.update_torrent_info columns update_dict m = Ok m' ->
        Table.consistent (Table.get_item_uid str_of) m').
Proof.
  split; [intros u row; discriminate|].
  split; [intros m u row; discriminate|].
  split.
  - intros new remote m. apply add_items_consistent.
  - intros columns update_dict m m'. apply update_torrent_info_consistent.
Qed.

Lemma local_add_forgets_witness :
  Table.data_items
    (Table.add_items (Table.get_item_uid Table.str_of) [Table.item_a] false
       (Table.add_items (Table.get_item_uid Table.str_of) [Table.item_b] false
          Table.one_row))
  = [Table.item_a; Table.item_b; Table.item_a].
Proof.
  destruct (local_add_forgets (Table.get_item_uid Table.str_of)
              [Table.item_b] Table.one_row) as (_ & H).
  - vm_compute; discriminate.
  - etransitivity; [apply H|vm_compute; reflexivity].
    + vm_compute. now left.
    + vm_compute; reflexivity.
    + vm_compute. intros [H0|[]]. discriminate.
Defined.

Lemma first_row_is_never_updated_witness :
  Table.update_torrent_info 5 Table.rename_a Table.two_rows
  = Ok Table.two_rows.
Proof.
  destruct (first_row_is_never_updated (Table.get_item_uid Table.str_of) 5
              [Table.item_a; Table.item_b] false Table.init
              Table.item_a [Table.item_b] Table.rename_a)
    as (_ & _ & H).
  - vm_compute; reflexivity.
  - now right.
  - vm_compute. intros [H0|[]]. discriminate.
  - vm_compute; reflexivity.
  - exact H.
Defined.

(* ------------------------------------------------------------------ *)
(** ** Properties: the singleton *)
(* ------------------------------------------------------------------ *)

(** Once the class holds an instance, every call answers with it or
    raises [RuntimeError], and the class keeps it. *)
Lemma run_holding calls : forall c i,
  Singleton.single c = Some i ->
  Singleton.single (snd (Singleton.run calls c)) = Some i
  /\ forall k r,
       In (k, r) (fst (Singleton.run calls c)) ->
       (k = Singleton.GetInstance /\ r = Ok (Some i))
       \/ (k = Singleton.Construct /\ r = Raise RuntimeError).
Proof.
  induction calls as [|k calls IH]; intros c i Hc.
  - cbn. split; [exact Hc|]. intros k r [].
  - cbn [Singleton.run].
    assert (Hstep : Singleton.single (snd (Singleton.step k c)) = Some i
                    /\ ((k = Singleton.GetInstance
                         /\ fst (Singleton.step k c) = Ok (Some i))
                        \/ (k = Singleton.Construct
                            /\ fst (Singleton.step k c) = Raise RuntimeError))).
    { destruct k; cbn [Singleton.step].
      - unfold Singleton.construct. cbn [Singleton.single]. rewrite Hc.
        cbn. split; [first [exact Hc|reflexivity]|]. right. now split.
      - unfold Singleton.getInstance. rewrite Hc. cbn.
        split; [first [exact Hc|reflexivity]|]. left. now split. }
    destruct (Singleton.step k c) as [r c1]. cbn [fst snd] in Hstep.
    destruct Hstep as (Hc1 & Hr).
    destruct (IH c1 i Hc1) as (Hend & Hout).
    destruct (Singleton.run calls c1) as [out c2]. cbn [fst snd] in *.
    split; [exact Hend|]. intros k' r' [Heq|Hin].
    + injection Heq as <- <-. destruct Hr as [[-> ->]|[-> ->]]; auto.
    + now apply Hout.
Qed.

(** X21.  There is one handler.  Whatever calls a program makes on the
    freshly loaded class, [getInstance] never raises and never answers
    [None], all its answers are the same instance, and a direct
    construction gives that same instance or raises [RuntimeError]. *)
Theorem one_handler (calls : list Singleton.call) :
  exists i,
    forall k r,
      In (k, r) (fst (Singleton.run calls Singleton.loaded)) ->
      r = Ok (Some i)
      \/ (k = Singleton.Construct /\ r = Raise RuntimeError).
Proof.
  destruct calls as [|k calls]; [exists O; intros k r []|].
  exists O. cbn [Singleton.run].
  assert (Hstep : Singleton.step k Singleton.loaded
                  = (Ok (Some O), Singleton.mk_class (Some O) 1)).
  { destruct k; reflexivity. }
  rewrite Hstep.
  destruct (run_holding calls (Singleton.mk_class (Some O) 1) O eq_refl)
    as (_ & Hout).
  destruct (Singleton.run calls (Singleton.mk_class (Some O) 1)) as [out c2].
  cbn [fst] in *. intros k' r' [Heq|Hin].
  - injection Heq as <- <-. now left.
  - destruct (Hout k' r' Hin) as [[_ ->]|[-> ->]]; auto.
Qed.
